(** * GhostMarket NFT (NEP-11) ledger: a shallow embedding and its properties

    The contract [contracts/NEP11/GhostMarket.NFT.py] is a boa3 (Python syntax)
    smart contract over the flat key-value storage of its host.  This file
    embeds its storage helpers and public operations as programs of a small
    state-and-failure monad over a world made of the key-value store, the
    list of storage accesses performed so far and the list of emitted
    notifications, and proves properties of these programs.

    Conventions of the embedding:
    - [bytes] is [list byte]; keys and values of the store are bytes;
    - an integer is stored as its little-endian two's-complement byte
      string of minimal length (zero is the empty string), which is what
      [to_int] reads back; a missing key reads as the empty string;
    - [assert] and [raise] end the call with a failure; the failure carries
      the world at the point where it happened, so that what was touched
      before it can be inspected;
    - what the host decides (witnesses, the transaction hash, the outcome of
      the fee-token transfer, whether an address holds a contract) is a
      field of the call environment [Env];
    - calls into other contracts are recorded as notifications; the receiver
      hook is taken to return normally and not to call back.  A recipient
      that is the executing contract itself is outside this reading: its
      hook is the contract's own [onNEP11Payment], which aborts;
    - integers are unbounded, as in the source; the host's integers hold at
      most 32 bytes, and [mint_in_range] states that a mint stays within
      them. *)

From Stdlib Require Import ZArith Lia List Bool String.
From Stdlib Require Import Strings.Byte.
From stdpp Require Import base option countable gmap list fin_maps.

Local Open Scope Z_scope.

(** ** Bytes *)

Abbreviation bytes := (list byte).

#[global] Instance byte_eq_decision : EqDecision byte := Byte.byte_eq_dec.

#[global] Program Instance byte_countable : Countable byte :=
  inj_countable Byte.to_N Byte.of_N Byte.of_to_N.

(** ** Integers as byte strings *)

Module IntBytes.

Definition byte_of_Z (z : Z) : byte :=
  default x00 (Byte.of_N (Z.to_N (z mod 256))).

Definition Z_of_byte (b : byte) : Z := Z.of_N (Byte.to_N b).

(** [n] little-endian base-256 digits of [z] (two's complement when [z < 0]). *)
Fixpoint le_bytes (n : nat) (z : Z) : bytes :=
  match n with
  | O => []
  | S n' => byte_of_Z z :: le_bytes n' (z / 256)
  end.

Fixpoint le_value (bs : bytes) : Z :=
  match bs with
  | [] => 0
  | b :: rest => Z_of_byte b + 256 * le_value rest
  end.

(** Number of bytes of the minimal signed representation. *)
Definition byte_len (z : Z) : nat :=
  if z =? 0 then O
  else Z.to_nat ((Z.log2 (if z <? 0 then - z - 1 else z) + 1) / 8 + 1).

Definition int_to_bytes (z : Z) : bytes := le_bytes (byte_len z) z.

(** [bytes.to_int()]: little-endian, signed. *)
Definition to_int (bs : bytes) : Z :=
  let u := le_value bs in
  if 2 * u <? 2 ^ (8 * Z.of_nat (length bs)) then u
  else u - 2 ^ (8 * Z.of_nat (length bs)).

End IntBytes.

Export IntBytes.

(** ** Host interface *)

(** Values handed to the host's binary serializer by this contract: the
    [data] argument of [mint] and the list of authorized addresses. *)
Inductive Any :=
| AInt (z : Z)
| ABool (b : bool)
| ABytes (b : bytes)
| AList (items : list bytes).

(** Built-ins of the host whose code is not part of the contract.  Only
    what the contract relies on is required of them: deserializing a
    serialized value gives the value back, and converting a 20-byte string
    to [UInt160] gives that string. *)
Class Host := {
  serialize : Any -> bytes;
  deserialize : bytes -> option Any;
  json_serialize : bytes -> bytes;
  to_UInt160 : bytes -> option bytes;
  deserialize_serialize : forall a, deserialize (serialize a) = Some a;
  to_UInt160_address : forall b, length b = 20%nat -> to_UInt160 b = Some b
}.

(** What the host decides for one invocation. *)
Record Env := {
  witness : bytes -> bool;               (* check_witness *)
  tx_hash : bytes;                       (* script_container.hash *)
  executing_script_hash : bytes;
  calling_script_hash : bytes;
  gas_transfer : bytes -> bytes -> Z -> bool;   (* GAS.transfer(from, to, amount, None) *)
  gas_balance : bytes -> Z;              (* GAS.balanceOf *)
  is_contract : bytes -> bool            (* get_contract(hash) is not None *)
}.

(** ** Notifications, storage accesses, worlds *)

Inductive Event :=
| on_transfer (from_addr to_addr : option bytes) (amount : Z) (tokenId : bytes)
| on_auth (authorized : bytes) (add : bool)
| on_deploy (owner : bytes) (symbol : bytes)
| on_mint_fees_updated (value : Z)
| debug (params : list bytes)
| call_GAS_transfer (from_addr to_addr : bytes) (amount : Z)
| call_onNEP11Payment (contract : bytes) (from_addr : option bytes)
    (amount : Z) (tokenId : bytes) (data : option Any).

Inductive Access :=
| Read (key : bytes)
| Written (key : bytes)
| Deleted (key : bytes)
| Scanned (prefix : bytes).

Record World := mkWorld {
  store : gmap bytes bytes;
  accesses : list Access;
  events : list Event
}.

Definition empty_world : World := mkWorld ∅ [] [].

Inductive Failure :=
| AssertionError
| Exception (msg : string)
| ValueError
| IndexError
| TypeError
| Abort.

Inductive Outcome (A : Type) :=
| Ok (a : A) (w : World)
| Fault (e : Failure) (w : World).
Arguments Ok {A} a w.
Arguments Fault {A} e w.

(** ** The monad of contract code *)

Definition M (A : Type) : Type := Env -> World -> Outcome A.

Definition ret {A} (a : A) : M A := fun _ w => Ok a w.

Definition bind {A B} (m : M A) (f : A -> M B) : M B :=
  fun env w =>
    match m env w with
    | Ok a w' => f a env w'
    | Fault e w' => Fault e w'
    end.

Notation "x <- m ;; k" := (bind m (fun x => k))
  (at level 100, m at next level, right associativity).
Notation "m ;;; k" := (bind m (fun _ => k))
  (at level 100, right associativity).

Definition fail {A} (e : Failure) : M A := fun _ w => Fault e w.
Definition raise {A} (msg : string) : M A := fail (Exception msg).
Definition assert (b : bool) : M unit := if b then ret tt else fail AssertionError.
Definition ask {A} (f : Env -> A) : M A := fun env w => Ok (f env) w.
Definition notify (e : Event) : M unit :=
  fun _ w => Ok tt (mkWorld (store w) (accesses w) (events w ++ [e])).
Definition check_witness (a : bytes) : M bool := ask (fun env => witness env a).

Definition accessed (a : Access) (w : World) : World :=
  mkWorld (store w) (accesses w ++ [a]) (events w).

(** The storage interop: [get] of a missing key is the empty string. *)
Module Storage.
Definition get (key : bytes) : M bytes :=
  fun _ w => Ok (default [] (store w !! key)) (accessed (Read key) w).
Definition put (key value : bytes) : M unit :=
  fun _ w => Ok tt (mkWorld (<[key:=value]> (store w))
                             (accesses w ++ [Written key]) (events w)).
Definition find (p : bytes) : M (list (bytes * bytes)) :=
  fun _ w => Ok (map_to_list (filter (fun kv => p `prefix_of` kv.1) (store w)))
                (accessed (Scanned p) w).
Definition delete (key : bytes) : M unit :=
  fun _ w => Ok tt (mkWorld (base.delete key (store w))
                             (accesses w ++ [Deleted key]) (events w)).
End Storage.

Definition to_bool (b : bytes) : bool :=
  negb (forallb (fun x => bool_decide (x = x00)) b).
Definition bool_to_bytes (b : bool) : bytes := if b then [x01] else [x00].

(** ** The contract *)

(** *** Token settings, prefixes and keys *)

Definition OWNER : bytes :=
  [x96; x57; x6c; x0e; x2a; x2a; x1c; x21; xc4; xac;
   x5e; xbd; x29; x33; x31; x15; x25; x41; x1f; x40].
Definition DEPLOY_FEE : Z := 10000000.
Definition TOKEN_SYMBOL : bytes := ["G"; "H"; "O"; "S"; "T"]%byte.
Definition TOKEN_SYMBOL_B : bytes := ["G"; "H"; "O"; "S"; "T"]%byte.
Definition DEPLOYED : bytes := ["d"; "e"; "p"; "l"; "o"; "y"; "e"; "d"]%byte.

Definition ACCOUNT_PREFIX : bytes := ["A"]%byte.
Definition TOKEN_PREFIX : bytes := ["T"]%byte.
Definition LOCKED_PREFIX : bytes := ["L"; "C"]%byte.
Definition BALANCE_PREFIX : bytes := ["B"]%byte.
Definition SUPPLY_PREFIX : bytes := ["S"]%byte.
Definition META_PREFIX : bytes := ["M"]%byte.
Definition LOCKED_VIEW_COUNT : bytes := ["L"; "V"; "C"]%byte.

Definition TOKEN_COUNT : bytes := ["T"; "C"]%byte.
Definition PAUSED : bytes := ["P"; "A"; "U"; "S"; "E"; "D"]%byte.
Definition MINT_FEE : bytes := ["M"; "I"; "N"; "T"; "_"; "F"; "E"; "E"]%byte.
Definition AUTH_ADDRESSES : bytes :=
  ["A"; "U"; "T"; "H"; "_"; "A"; "D"; "D"; "R"]%byte.

(** *** Key helpers *)

Definition mk_account_prefix (address : bytes) : bytes := ACCOUNT_PREFIX ++ address.
Definition mk_balance_key (address : bytes) : bytes := BALANCE_PREFIX ++ address.
Definition mk_token_key (token : bytes) : bytes := TOKEN_PREFIX ++ token.
Definition mk_locked_key (token : bytes) : bytes := LOCKED_PREFIX ++ token.
Definition mk_meta_key (token : bytes) : bytes := META_PREFIX ++ token.
Definition mk_lv_key (token : bytes) : bytes := LOCKED_VIEW_COUNT ++ token.

Section Contract.
Context `{Host}.

(** [UInt160(b)] *)
Definition UInt160 (b : bytes) : M bytes :=
  match to_UInt160 b with
  | Some a => ret a
  | None => fail TypeError
  end.

(** *** Public read operations *)

Definition symbol : M bytes := ret TOKEN_SYMBOL.

Definition decimals : M Z := ret 0.

Definition totalSupply : M Z :=
  v <- Storage.get SUPPLY_PREFIX ;;
  ret (to_int v).

Definition balanceOf (owner : bytes) : M Z :=
  assert (Nat.eqb (length owner) 20) ;;;
  v <- Storage.get (mk_balance_key owner) ;;
  ret (to_int v).

Definition tokensOf (owner : bytes) : M (list (bytes * bytes)) :=
  assert (Nat.eqb (length owner) 20) ;;;
  Storage.find (mk_account_prefix owner).

(** The body of [ownerOf] is its docstring alone: the call returns [None]. *)
Definition ownerOf (tokenId : bytes) : M (option bytes) := ret None.

Definition tokens : M (list (bytes * bytes)) := Storage.find TOKEN_PREFIX.

(** *** Storage helpers *)

Definition get_meta (token : bytes) : M bytes := Storage.get (mk_meta_key token).
Definition remove_meta (token : bytes) : M unit := Storage.delete (mk_meta_key token).
Definition add_meta (token meta : bytes) : M unit := Storage.put (mk_meta_key token) meta.

Definition add_token (owner token : bytes) : M unit :=
  Storage.put (mk_account_prefix owner ++ token) token.
Definition remove_token (owner token : bytes) : M unit :=
  Storage.delete (mk_account_prefix owner ++ token).

Definition remove_owner_of (token : bytes) : M unit := Storage.delete (mk_token_key token).
Definition set_owner_of (token owner : bytes) : M unit :=
  Storage.put (mk_token_key token) owner.
Definition get_owner_of (token : bytes) : M bytes :=
  owner <- Storage.get (mk_token_key token) ;;
  UInt160 owner.

Definition add_locked_content (token content : bytes) : M unit :=
  Storage.put (mk_locked_key token) content ;;;
  v <- Storage.get (mk_locked_key token) ;;
  notify (debug [list_byte_of_string "locked2: "; v; mk_locked_key token]).
Definition get_locked_content (token : bytes) : M bytes :=
  val <- Storage.get (mk_locked_key token) ;;
  notify (debug [list_byte_of_string "locked3: "; val; mk_locked_key token]) ;;;
  ret val.
Definition remove_locked_content (token : bytes) : M unit :=
  Storage.delete (mk_locked_key token).

(** [to_int] never yields [None]: the [fee is None] branch is dead. *)
Definition get_mint_fee : M Z :=
  v <- Storage.get MINT_FEE ;;
  ret (to_int v).
Definition set_mint_fee (amount : Z) : M Z :=
  Storage.put MINT_FEE (int_to_bytes amount) ;;;
  get_mint_fee.

Definition get_locked_view_counter (token : bytes) : M Z :=
  v <- Storage.get (mk_lv_key token) ;;
  ret (to_int v).
Definition incr_locked_view_counter (token : bytes) : M unit :=
  v <- Storage.get (mk_lv_key token) ;;
  Storage.put (mk_lv_key token) (int_to_bytes (to_int v + 1)).

Definition add_to_supply (amount : Z) : M unit :=
  total <- totalSupply ;;
  Storage.put SUPPLY_PREFIX (int_to_bytes (total + amount)).

Definition add_to_balance (owner : bytes) (amount : Z) : M unit :=
  old <- balanceOf owner ;;
  let new := old + amount in
  if new >? 0 then Storage.put (mk_balance_key owner) (int_to_bytes new)
  else Storage.delete (mk_balance_key owner).

(** *** Transfer, burn, mint *)

(** [post_transfer] (562-580): the Transfer event, then, for a recipient
    that holds a contract, [call_contract(to, 'onNEP11Payment', ...)].  The
    call is recorded as the notification [call_onNEP11Payment] and taken
    to return.  This reads the call for a foreign recipient only: for the
    executing contract as recipient the callee is [onNEP11Payment] below,
    which aborts, and the statements that conclude that a transfer or a
    mint succeeds carry [to <> executing_script_hash env]. *)
Definition post_transfer (from_address to_address : option bytes)
    (token : bytes) (data : option Any) : M unit :=
  notify (on_transfer from_address to_address 1 token) ;;;
  match to_address with
  | None => ret tt
  | Some to =>
      contract <- ask (fun env => is_contract env to) ;;
      if contract
      then notify (call_onNEP11Payment to from_address 1 token data)
      else ret tt
  end.

Definition transfer (to tokenId : bytes) (data : option Any) : M bool :=
  assert (Nat.eqb (length to) 20) ;;;
  token_owner <- get_owner_of tokenId ;;
  authorized <- check_witness token_owner ;;
  if negb authorized then ret false
  else
    (if negb (bool_decide (token_owner = to)) then
       add_to_balance token_owner (-1) ;;;
       remove_token token_owner tokenId ;;;
       add_to_balance to 1 ;;;
       add_token to tokenId ;;;
       set_owner_of tokenId to
     else ret tt) ;;;
    post_transfer (Some token_owner) (Some to) tokenId data ;;;
    ret true.

Definition internal_burn (token : bytes) : M bool :=
  owner <- get_owner_of token ;;
  authorized <- check_witness owner ;;
  if negb authorized then ret false
  else
    remove_token owner token ;;;
    remove_meta token ;;;
    remove_owner_of token ;;;
    add_to_balance owner (-1) ;;;
    add_to_supply (-1) ;;;
    post_transfer (Some owner) None token None ;;;
    ret true.

Definition burn (token : bytes) : M bool := internal_burn token.

Fixpoint multiBurn (tokens : list bytes) : M (list bool) :=
  match tokens with
  | [] => ret []
  | i :: rest =>
      b <- burn i ;;
      bs <- multiBurn rest ;;
      ret (b :: bs)
  end.

(** [bytearray.append] of an integer on a buffer concatenates the byte
    string of the integer. *)
Definition internal_mint (account meta lockedContent : bytes)
    (data : option Any) : M bytes :=
  total <- totalSupply ;;
  let newNFT := TOKEN_SYMBOL_B in
  let nftData := 0 in
  count <- Storage.get TOKEN_COUNT ;;
  let token_id := to_int count + 1 in
  Storage.put TOKEN_COUNT (int_to_bytes token_id) ;;;
  tx <- ask tx_hash ;;
  let nftData := nftData + to_int tx + token_id in
  let nftData :=
    match data with
    | Some d => nftData + to_int (serialize d)
    | None => nftData
    end in
  let newNFT := newNFT ++ int_to_bytes nftData in
  let nftmeta := json_serialize meta in
  let token := newNFT in
  notify (debug [list_byte_of_string "locked: "; lockedContent]) ;;;
  add_token account token ;;;
  add_locked_content token lockedContent ;;;
  add_meta token nftmeta ;;;
  set_owner_of token account ;;;
  add_to_balance account 1 ;;;
  add_to_supply 1 ;;;
  post_transfer None (Some account) token None ;;;
  ret token.

Definition mint (account meta lockedContent : bytes) (data : option Any) : M bytes :=
  fee <- get_mint_fee ;;
  if fee <? 0 then raise "Mint fee can't be < 0"
  else
    self <- ask executing_script_hash ;;
    paid <- ask (fun env => gas_transfer env account self fee) ;;
    notify (call_GAS_transfer account self fee) ;;;
    if negb paid then raise "Fee payment failed!"
    else internal_mint account meta lockedContent data.

(** [for i in range(0, len(meta))]: indexing [lockedContent] past its end
    is an error. *)
Fixpoint multiMint (account : bytes) (meta lockedContent : list bytes)
    (data : option Any) : M (list bytes) :=
  match meta with
  | [] => ret []
  | m :: meta' =>
      match lockedContent with
      | [] => fail IndexError
      | c :: lockedContent' =>
          t <- mint account m c data ;;
          ts <- multiMint account meta' lockedContent' data ;;
          ret (t :: ts)
      end
  end.

(** *** Fees, locked content, administration *)

Definition verify : M bool :=
  w <- check_witness OWNER ;;
  if w then ret true else ret false.

Definition withdrawFee (account : bytes) : M bool :=
  v <- verify ;;
  assert v ;;;
  self <- ask executing_script_hash ;;
  current_balance <- ask (fun env => gas_balance env self) ;;
  paid <- ask (fun env => gas_transfer env self account current_balance) ;;
  notify (call_GAS_transfer self account current_balance) ;;;
  ret paid.

Definition getFeeBalance : M Z :=
  self <- ask executing_script_hash ;;
  ask (fun env => gas_balance env self).

Definition getMintFee : M Z := get_mint_fee.

Definition setMintFee (fee : Z) : M Z :=
  v <- verify ;;
  assert v ;;;
  set_mint_fee fee.

Definition getLockedContentViewCount (token : bytes) : M Z :=
  get_locked_view_counter token.

Definition getLockedContent (token : bytes) : M bytes :=
  owner <- get_owner_of token ;;
  authorized <- check_witness owner ;;
  if negb authorized then raise "Prohibited access to locked content!"
  else
    incr_locked_view_counter token ;;;
    get_locked_content token.

(** [for i in auth: if i == address: found = True] *)
Definition found_in (auth : list bytes) (address : bytes) : bool :=
  fold_left (fun found i => if bool_decide (i = address) then true else found)
            auth false.

(** [list.remove]: drops the first occurrence, an error when there is none. *)
Fixpoint list_remove (x : bytes) (l : list bytes) : option (list bytes) :=
  match l with
  | [] => None
  | y :: l' =>
      if bool_decide (y = x) then Some l'
      else option_map (cons y) (list_remove x l')
  end.

Definition set_authorized_address (address : bytes) (authorized : bool) : M bool :=
  v <- verify ;;
  if negb v then ret false
  else
    serialized <- Storage.get AUTH_ADDRESSES ;;
    match deserialize serialized with
    | Some (AList auth) =>
        (if authorized then
           let found := found_in auth address in
           let auth := if negb found then auth ++ [address] else auth in
           Storage.put AUTH_ADDRESSES (serialize (AList auth)) ;;;
           notify (on_auth address true)
         else
           match list_remove address auth with
           | Some auth' =>
               Storage.put AUTH_ADDRESSES (serialize (AList auth')) ;;;
               notify (on_auth address false)
           | None => fail ValueError
           end) ;;;
        ret true
    | _ => fail TypeError
    end.

Definition deploy : M bool :=
  w <- check_witness OWNER ;;
  if negb w then ret false
  else
    d <- Storage.get DEPLOYED ;;
    if to_bool d then ret false
    else
      Storage.put DEPLOYED (bool_to_bytes true) ;;;
      Storage.put TOKEN_COUNT (int_to_bytes 0) ;;;
      Storage.put MINT_FEE (int_to_bytes DEPLOY_FEE) ;;;
      let auth := [] ++ [OWNER] in
      let serialized := serialize (AList auth) in
      Storage.put AUTH_ADDRESSES serialized ;;;
      sym <- symbol ;;
      notify (on_deploy OWNER sym) ;;;
      ret true.

(** [onNEP11Payment] (533-545): the contract accepts no token. *)
Definition onNEP11Payment (from_addr : bytes) (amount : Z) (tokenId : bytes)
    (data : option Any) : M unit := fail Abort.

End Contract.

(** ** A host to run the contract on *)

Module SimpleHost.

Definition enc_item (b : bytes) : bytes :=
  flat_map (fun x => [x01; x]) b ++ [x00].

Definition enc_items (l : list bytes) : bytes := flat_map enc_item l.

Fixpoint dec_items (bs cur : bytes) : option (list bytes) :=
  match bs with
  | [] => match cur with [] => Some [] | _ => None end
  | x00 :: rest => option_map (cons (rev cur)) (dec_items rest [])
  | _ :: rest =>
      match rest with
      | [] => None
      | x :: rest' => dec_items rest' (x :: cur)
      end
  end.

Definition serialize (a : Any) : bytes :=
  match a with
  | AInt z => x21 :: int_to_bytes z
  | ABool b => x20 :: bool_to_bytes b
  | ABytes b => x28 :: b
  | AList l => x40 :: enc_items l
  end.

Definition deserialize (bs : bytes) : option Any :=
  match bs with
  | x21 :: p => Some (AInt (to_int p))
  | x20 :: [x01] => Some (ABool true)
  | x20 :: [x00] => Some (ABool false)
  | x28 :: p => Some (ABytes p)
  | x40 :: p => option_map AList (dec_items p [])
  | _ => None
  end.

Definition json_serialize (s : bytes) : bytes := x22 :: s ++ [x22].

Definition to_UInt160 (b : bytes) : option bytes :=
  if Nat.eqb (length b) 20 then Some b else None.

End SimpleHost.

(** ** Observations on outcomes and stores *)

Definition world_of {A} (o : Outcome A) : World :=
  match o with Ok _ w => w | Fault _ w => w end.

Definition value_of {A} (o : Outcome A) : option A :=
  match o with Ok a _ => Some a | Fault _ _ => None end.

(** What [get(key)] reads in a store. *)
Definition read (s : gmap bytes bytes) (key : bytes) : bytes :=
  default [] (s !! key).

(** A TokenOwner entry: a key under [TOKEN_PREFIX] other than the key of
    the token counter, which shares that prefix. *)
Definition is_token_key (k : bytes) : Prop :=
  TOKEN_PREFIX `prefix_of` k /\ k <> TOKEN_COUNT.

#[global] Instance is_token_key_dec k : Decision (is_token_key k).
Proof. unfold is_token_key. apply _. Defined.

(** Token [t] is live: it has a TokenOwner entry. *)
Definition live (s : gmap bytes bytes) (t : bytes) : Prop :=
  is_token_key (mk_token_key t) /\ is_Some (s !! mk_token_key t).

(** The TokenOwner entries, and those of one owner. *)
Definition token_entries (s : gmap bytes bytes) : gmap bytes bytes :=
  filter (fun kv => is_token_key kv.1) s.

Definition entries_of (a : bytes) (s : gmap bytes bytes) : gmap bytes bytes :=
  filter (fun kv => is_token_key kv.1 /\ kv.2 = a) s.

Definition live_count (s : gmap bytes bytes) : nat := size (token_entries s).
Definition owned_count (s : gmap bytes bytes) (a : bytes) : nat :=
  size (entries_of a s).

(** [owns o a] is 1 when [o] is [a], else 0. *)
Definition owns (o a : bytes) : Z := if decide (o = a) then 1 else 0.

(** Integer cells of the store, as the contract reads them. *)
Definition balance (s : gmap bytes bytes) (a : bytes) : Z :=
  to_int (read s (mk_balance_key a)).
Definition supply (s : gmap bytes bytes) : Z := to_int (read s SUPPLY_PREFIX).
Definition token_count (s : gmap bytes bytes) : Z := to_int (read s TOKEN_COUNT).
Definition view_count (s : gmap bytes bytes) (t : bytes) : Z :=
  to_int (read s (mk_lv_key t)).
Definition mint_fee (s : gmap bytes bytes) : Z := to_int (read s MINT_FEE).

(** ** Store transformers

    What the successful runs of the operations do to the store, written
    as functions on stores; the run lemmas below relate them to the
    monadic programs. *)

Definition bal_add (a : bytes) (d : Z) (s : gmap bytes bytes) : gmap bytes bytes :=
  if balance s a + d >? 0
  then <[mk_balance_key a := int_to_bytes (balance s a + d)]> s
  else delete (mk_balance_key a) s.

Definition sup_add (d : Z) (s : gmap bytes bytes) : gmap bytes bytes :=
  <[SUPPLY_PREFIX := int_to_bytes (supply s + d)]> s.

Definition transfer_store (o to t : bytes) (s : gmap bytes bytes) : gmap bytes bytes :=
  <[mk_token_key t := to]>
    (<[mk_account_prefix to ++ t := t]>
       (bal_add to 1 (delete (mk_account_prefix o ++ t) (bal_add o (-1) s)))).

Definition burn_store (o t : bytes) (s : gmap bytes bytes) : gmap bytes bytes :=
  sup_add (-1)
    (bal_add o (-1)
       (delete (mk_token_key t)
          (delete (mk_meta_key t) (delete (mk_account_prefix o ++ t) s)))).

Definition hook_events (env : Env) (from_address to_address : option bytes)
    (token : bytes) (data : option Any) : list Event :=
  match to_address with
  | Some to =>
      if is_contract env to
      then [call_onNEP11Payment to from_address 1 token data] else []
  | None => []
  end.

Section Derived.
Context `{Host}.

(** The integer appended to the symbol by [internal_mint]. *)
Definition nft_data (env : Env) (s : gmap bytes bytes) (data : option Any) : Z :=
  let n := 0 + to_int (tx_hash env) + (token_count s + 1) in
  match data with
  | Some d => n + to_int (serialize d)
  | None => n
  end.

Definition new_token_id (env : Env) (s : gmap bytes bytes) (data : option Any) : bytes :=
  TOKEN_SYMBOL_B ++ int_to_bytes (nft_data env s data).

Definition mint_store (account meta lockedContent id : bytes)
    (s : gmap bytes bytes) : gmap bytes bytes :=
  sup_add 1
    (bal_add account 1
       (<[mk_token_key id := account]>
          (<[mk_meta_key id := json_serialize meta]>
             (<[mk_locked_key id := lockedContent]>
                (<[mk_account_prefix account ++ id := id]>
                   (<[TOKEN_COUNT := int_to_bytes (token_count s + 1)]> s)))))).

(** ** The accounting invariant *)

Record ledger_inv (s : gmap bytes bytes) : Prop := {
  inv_balance : forall a, length a = 20%nat -> balance s a = Z.of_nat (owned_count s a);
  inv_supply : supply s = Z.of_nat (live_count s);
  inv_owner : map_Forall (fun _ o => length o = 20%nat) (token_entries s)
}.

(** ** Sequences of operations *)

(** The state of a freshly deployed contract: empty storage, or storage
    as [deploy] leaves it. *)
Inductive fresh : World -> Prop :=
| fresh_empty : fresh empty_world
| fresh_deploy env w : deploy env empty_world = Ok true w -> fresh w.

(** States reached by any sequence of successful mint, burn and transfer
    calls. *)
Inductive reachable : World -> Prop :=
| reach_fresh w : fresh w -> reachable w
| reach_mint w env account meta content data id w' :
    reachable w ->
    mint account meta content data env w = Ok id w' ->
    reachable w'
| reach_burn w env t b w' :
    reachable w -> burn t env w = Ok b w' -> reachable w'
| reach_transfer w env to t data b w' :
    reachable w -> transfer to t data env w = Ok b w' -> reachable w'.

(** The same, where every mint derives an identifier that is not live and
    burn and transfer are called on live tokens. *)
Inductive reachable_fresh_ids : World -> Prop :=
| rf_fresh w : fresh w -> reachable_fresh_ids w
| rf_mint w env account meta content data id w' :
    reachable_fresh_ids w ->
    store w !! mk_token_key id = None ->
    mint account meta content data env w = Ok id w' ->
    reachable_fresh_ids w'
| rf_burn w env t b w' :
    reachable_fresh_ids w -> live (store w) t ->
    burn t env w = Ok b w' -> reachable_fresh_ids w'
| rf_transfer w env to t data b w' :
    reachable_fresh_ids w -> live (store w) t ->
    transfer to t data env w = Ok b w' -> reachable_fresh_ids w'.

(** [later id w0 w]: [w] comes from [w0] by successful public calls, none
    of which is a mint that returned [id]. *)
Inductive later (id : bytes) : World -> World -> Prop :=
| later_refl w : later id w w
| later_read w0 w w' : later id w0 w -> store w' = store w -> later id w0 w'
| later_transfer w0 w env to t data b w' :
    later id w0 w -> transfer to t data env w = Ok b w' -> later id w0 w'
| later_burn w0 w env t b w' :
    later id w0 w -> burn t env w = Ok b w' -> later id w0 w'
| later_multiBurn w0 w env ts bs w' :
    later id w0 w -> multiBurn ts env w = Ok bs w' -> later id w0 w'
| later_mint w0 w env account meta content data id' w' :
    later id w0 w -> mint account meta content data env w = Ok id' w' ->
    id' <> id -> later id w0 w'
| later_multiMint w0 w env account metas contents data ids w' :
    later id w0 w ->
    multiMint account metas contents data env w = Ok ids w' ->
    id ∉ ids -> later id w0 w'
| later_getLockedContent w0 w env t c w' :
    later id w0 w -> getLockedContent t env w = Ok c w' -> later id w0 w'
| later_set_authorized_address w0 w env a b r w' :
    later id w0 w -> set_authorized_address a b env w = Ok r w' -> later id w0 w'
| later_setMintFee w0 w env fee r w' :
    later id w0 w -> setMintFee fee env w = Ok r w' -> later id w0 w'
| later_deploy w0 w env r w' :
    later id w0 w -> deploy env w = Ok r w' -> later id w0 w'.

End Derived.

Section MoreDerived.
Context `{Host}.

(** What [deploy] stores. *)
Definition deploy_store_of (s : gmap bytes bytes) : gmap bytes bytes :=
  <[AUTH_ADDRESSES := serialize (AList [OWNER])]>
    (<[MINT_FEE := int_to_bytes DEPLOY_FEE]>
       (<[TOKEN_COUNT := int_to_bytes 0]>
          (<[DEPLOYED := bool_to_bytes true]> s))).

(** The integers of the host hold at most 32 bytes, and a byte string
    longer than that does not convert to an integer. *)
Definition host_int (z : Z) : Prop := - 2 ^ 255 <= z < 2 ^ 255.
Definition host_bytes (b : bytes) : Prop := (length b <= 32)%nat.

(** Every byte string that [mint] converts to an integer, and every
    integer it computes, is within the integers of the host: the fee, the
    supply, the counter and its successor, the transaction hash and the
    serialized data with the sums [internal_mint] forms from them, the
    balance of the account and the incremented balance and supply. *)
Definition mint_in_range (env : Env) (s : gmap bytes bytes) (account : bytes)
    (data : option Any) : Prop :=
  host_bytes (read s MINT_FEE)
  /\ host_bytes (read s SUPPLY_PREFIX)
  /\ host_bytes (read s TOKEN_COUNT)
  /\ host_int (token_count s + 1)
  /\ host_bytes (tx_hash env)
  /\ host_int (to_int (tx_hash env) + (token_count s + 1))
  /\ match data with Some d => host_bytes (serialize d) | None => True end
  /\ host_int (nft_data env s data)
  /\ host_bytes (read s (mk_balance_key account))
  /\ host_int (balance s account + 1)
  /\ host_int (supply s + 1).

End MoreDerived.

(** ** The index invariant *)

(** The OwnerToken index mirrors the TokenOwner entries: an index entry of
    a 20-byte address [a] for [t] holds [t] and means that [t] is live and
    owned by [a], and every live token has the index entry of its owner,
    who is 20 bytes long. *)
Record index_inv (s : gmap bytes bytes) : Prop := {
  idx_sound : forall a t v,
    length a = 20%nat -> s !! (mk_account_prefix a ++ t) = Some v ->
    v = t /\ is_token_key (mk_token_key t) /\ s !! mk_token_key t = Some a;
  idx_complete : forall t a,
    is_token_key (mk_token_key t) -> s !! mk_token_key t = Some a ->
    length a = 20%nat /\ s !! (mk_account_prefix a ++ t) = Some t
}.

(** [keeps k m]: whatever its outcome, [m] leaves the entry of [k] as it
    found it. *)
Definition keeps (k : bytes) {A} (m : M A) : Prop :=
  forall env w, store (world_of (m env w)) !! k = store w !! k.

(** * Facts *)

(** ** The integer codec *)

Lemma Z_of_byte_of_Z z : Z_of_byte (byte_of_Z z) = z mod 256.
Proof.
  unfold Z_of_byte, byte_of_Z.
  assert (Hr : 0 <= z mod 256 < 256) by (apply Z.mod_pos_bound; lia).
  destruct (Byte.of_N (Z.to_N (z mod 256))) as [b|] eqn:E.
  - apply Byte.to_of_N in E. simpl. rewrite E. lia.
  - apply Byte.of_N_None_iff in E. lia.
Qed.

Lemma length_le_bytes n z : length (le_bytes n z) = n.
Proof. revert z. induction n as [|n IH]; intros z; simpl; [done|]. by rewrite IH. Qed.

Lemma le_value_le_bytes n z :
  le_value (le_bytes n z) = z mod 2 ^ (8 * Z.of_nat n).
Proof.
  revert z. induction n as [|n IH]; intros z.
  - simpl. by rewrite Z.mod_1_r.
  - cbn [le_bytes le_value]. rewrite Z_of_byte_of_Z, IH.
    replace (8 * Z.of_nat (S n)) with (8 + 8 * Z.of_nat n) by lia.
    rewrite Z.pow_add_r by lia. change (2 ^ 8) with 256.
    rewrite Z.rem_mul_r; [done | lia |].
    apply Z.pow_pos_nonneg; lia.
Qed.

(** The minimal length is long enough for the sign bit. *)
Lemma byte_len_range z :
  - 2 ^ (8 * Z.of_nat (byte_len z)) <= 2 * z < 2 ^ (8 * Z.of_nat (byte_len z)).
Proof.
  unfold byte_len. destruct (Z.eqb_spec z 0) as [->|Hz]; [simpl; lia|].
  set (m := if z <? 0 then - z - 1 else z).
  assert (Hm : 0 <= m) by (unfold m; destruct (Z.ltb_spec z 0); lia).
  set (k := (Z.log2 m + 1) / 8 + 1).
  assert (Hl : 0 <= Z.log2 m) by apply Z.log2_nonneg.
  assert (Hk : Z.log2 m + 1 <= 8 * k - 1).
  { unfold k. pose proof (Z.mod_pos_bound (Z.log2 m + 1) 8 ltac:(lia)).
    pose proof (Z.div_mod (Z.log2 m + 1) 8 ltac:(lia)). lia. }
  assert (Hk0 : 0 < k) by (unfold k; pose proof (Z.div_pos (Z.log2 m + 1) 8); lia).
  rewrite Z2Nat.id by lia.
  assert (Hb : m < 2 ^ (8 * k - 1)).
  { destruct (Z.eq_dec m 0) as [->|Hm0].
    - apply Z.pow_pos_nonneg; lia.
    - pose proof (Z.log2_spec m ltac:(lia)) as [_ Hu].
      eapply Z.lt_le_trans; [exact Hu|].
      replace (Z.succ (Z.log2 m)) with (Z.log2 m + 1) by lia.
      apply Z.pow_le_mono_r; lia. }
  replace (8 * k) with (1 + (8 * k - 1)) by lia.
  rewrite Z.pow_add_r by lia. change (2 ^ 1) with 2.
  unfold m in Hb. destruct (Z.ltb_spec z 0); lia.
Qed.

Lemma to_int_le_bytes n z :
  - 2 ^ (8 * Z.of_nat n) <= 2 * z < 2 ^ (8 * Z.of_nat n) ->
  to_int (le_bytes n z) = z.
Proof.
  intros Hr. unfold to_int. rewrite length_le_bytes, le_value_le_bytes.
  set (p := 2 ^ (8 * Z.of_nat n)) in *.
  assert (Hp : 0 < p) by (apply Z.pow_pos_nonneg; lia).
  destruct (Z.ltb_spec z 0) as [Hneg|Hpos].
  - assert (E : z mod p = z + p).
    { symmetry. apply (Z.mod_unique_pos z p (-1)); lia. }
    rewrite E. destruct (Z.ltb_spec (2 * (z + p)) p); lia.
  - rewrite Z.mod_small by lia.
    destruct (Z.ltb_spec (2 * z) p); lia.
Qed.

(** Reading back a stored integer gives the integer. *)
Lemma to_int_int_to_bytes z : to_int (int_to_bytes z) = z.
Proof. apply to_int_le_bytes, byte_len_range. Qed.

Lemma int_to_bytes_inj z1 z2 : int_to_bytes z1 = int_to_bytes z2 -> z1 = z2.
Proof.
  intros E. rewrite <- (to_int_int_to_bytes z1), <- (to_int_int_to_bytes z2).
  by rewrite E.
Qed.

Lemma to_int_nil : to_int [] = 0.
Proof. reflexivity. Qed.

(** ** The host of the scenario *)

Module SimpleHostFacts.
Import SimpleHost.

Lemma dec_enc_item b rest cur :
  dec_items (enc_item b ++ rest) cur
  = option_map (cons (rev cur ++ b)) (dec_items rest []).
Proof.
  unfold enc_item. revert cur. induction b as [|x b IH]; intros cur.
  - simpl. by rewrite app_nil_r.
  - cbn [flat_map app dec_items]. rewrite IH. simpl.
    by rewrite <- app_assoc.
Qed.

Lemma dec_enc_items l : dec_items (enc_items l) [] = Some l.
Proof.
  induction l as [|b l IH]; [done|].
  unfold enc_items in *. cbn [flat_map]. by rewrite dec_enc_item, IH.
Qed.

Lemma deserialize_serialize a : deserialize (serialize a) = Some a.
Proof.
  destruct a as [z|[]|b|l]; simpl; try done.
  - by rewrite to_int_int_to_bytes.
  - by rewrite dec_enc_items.
Qed.

Lemma to_UInt160_address b : length b = 20%nat -> to_UInt160 b = Some b.
Proof. unfold to_UInt160. by intros ->. Qed.
End SimpleHostFacts.

#[global] Instance simple_host : Host := {|
  serialize := SimpleHost.serialize;
  deserialize := SimpleHost.deserialize;
  json_serialize := SimpleHost.json_serialize;
  to_UInt160 := SimpleHost.to_UInt160;
  deserialize_serialize := SimpleHostFacts.deserialize_serialize;
  to_UInt160_address := SimpleHostFacts.to_UInt160_address
|}.

(** ** A scenario *)

Definition addrA : bytes := repeat x0a 20.
Definition addrB : bytes := repeat x0b 20.
Definition short_address : bytes := repeat x0a 19.

(** An invocation whose transaction hash reads as the integer [h], signed
    by the addresses [ws]; the fee transfer succeeds and no address holds
    a contract. *)
Definition env_of (h : Z) (ws : list bytes) : Env := {|
  witness := fun a => bool_decide (a ∈ ws);
  tx_hash := le_bytes 32 h;
  executing_script_hash := repeat xee 20;
  calling_script_hash := repeat xcc 20;
  gas_transfer := fun _ _ _ => true;
  gas_balance := fun _ => 0;
  is_contract := fun _ => false
|}.

Definition ghost3 : bytes := TOKEN_SYMBOL_B ++ [x03].

(** Deploy, then a mint for [addrA] in a transaction of hash 2, then a mint
    for [addrB] in a transaction of hash 1. *)
Definition deployed : World :=
  world_of (deploy (env_of 0 [OWNER]) empty_world).
Definition minted_once : World :=
  world_of (mint addrA [x01] [x02] None (env_of 2 [addrA]) deployed).
Definition minted_twice : World :=
  world_of (mint addrB [x01] [x03] None (env_of 1 [addrB]) minted_once).

Definition ghost4 : bytes := TOKEN_SYMBOL_B ++ [x04].

(** After [minted_once]: a second mint in the transaction of the first;
    a transfer of the token to [addrB]; a negative fee set by the owner;
    [addrA] added to the authorized addresses. *)
Definition minted_again : World :=
  world_of (mint addrA [x01] [x04] None (env_of 2 [addrA]) minted_once).
Definition transferred : World :=
  world_of (transfer addrB ghost3 None (env_of 3 [addrA]) minted_once).
Definition burned : World :=
  world_of (burn ghost3 (env_of 4 [addrB]) transferred).
Definition negative_fee : World :=
  world_of (setMintFee (-1) (env_of 0 [OWNER]) deployed).
Definition authorized_A : World :=
  world_of (set_authorized_address addrA true (env_of 0 [OWNER]) deployed).

(** The two mints of [minted_twice], on a contract whose [deploy] was
    never called: the fee is unset and reads as 0. *)
Definition early_once : World :=
  world_of (mint addrA [x01] [x02] None (env_of 2 [addrA]) empty_world).
Definition early_twice : World :=
  world_of (mint addrB [x01] [x03] None (env_of 1 [addrB]) early_once).

(** ** Tactics to run the programs *)

Ltac unfold_prims :=
  cbv beta iota zeta delta
    [ bind ret fail raise assert ask notify check_witness accessed
      Storage.get Storage.put Storage.delete Storage.find
      UInt160 symbol decimals totalSupply balanceOf tokensOf ownerOf tokens
      get_meta remove_meta add_meta add_token remove_token remove_owner_of
      set_owner_of add_locked_content get_locked_content
      remove_locked_content get_mint_fee set_mint_fee get_locked_view_counter
      incr_locked_view_counter add_to_supply verify ];
  cbn [store accesses events].

Ltac step :=
  cbv beta iota zeta;
  cbn [store accesses events default from_option negb world_of value_of].

(** ** Running the helpers *)

Section Runs.
Context `{Host}.

Lemma len20 (a : bytes) : length a = 20%nat -> Nat.eqb (length a) 20 = true.
Proof. intros. by apply Nat.eqb_eq. Qed.

Lemma get_owner_of_run env w t o :
  store w !! mk_token_key t = Some o -> length o = 20%nat ->
  get_owner_of t env w = Ok o (accessed (Read (mk_token_key t)) w).
Proof.
  intros Ho Hlo. unfold get_owner_of. unfold_prims. rewrite Ho. step.
  by rewrite (to_UInt160_address o Hlo).
Qed.

Lemma add_to_balance_run a d env w :
  length a = 20%nat ->
  add_to_balance a d env w =
  Ok tt (mkWorld (bal_add a d (store w))
           (accesses w ++ Read (mk_balance_key a) ::
              [if balance (store w) a + d >? 0 then Written (mk_balance_key a)
               else Deleted (mk_balance_key a)])
           (events w)).
Proof.
  intros Hl. unfold add_to_balance. unfold_prims. rewrite (len20 a Hl). step.
  unfold bal_add, balance, read.
  destruct (_ >? 0); step; by rewrite <- app_assoc.
Qed.

Lemma add_to_balance_fault a d env w :
  length a <> 20%nat -> add_to_balance a d env w = Fault AssertionError w.
Proof.
  intros Hl. unfold add_to_balance. unfold_prims.
  by rewrite (proj2 (Nat.eqb_neq _ _) Hl).
Qed.

Lemma post_transfer_run f t tok d env w :
  post_transfer f t tok d env w =
  Ok tt (mkWorld (store w) (accesses w)
           (events w ++ on_transfer f t 1 tok :: hook_events env f t tok d)).
Proof.
  unfold post_transfer, hook_events. unfold_prims.
  destruct t as [to|]; [|done]. step.
  destruct (is_contract env to); step; [|done]. by rewrite <- app_assoc.
Qed.

(** ** Running transfer, burn and mint *)

Lemma transfer_run_other env w t o to data :
  store w !! mk_token_key t = Some o ->
  length o = 20%nat -> length to = 20%nat ->
  witness env o = true -> o <> to ->
  exists w', transfer to t data env w = Ok true w'
    /\ store w' = transfer_store o to t (store w)
    /\ events w' = events w ++ on_transfer (Some o) (Some to) 1 t ::
         hook_events env (Some o) (Some to) t data.
Proof.
  intros Ho Hlo Hlto Hw Hne. unfold transfer. unfold_prims.
  rewrite (len20 to Hlto). step. rewrite (get_owner_of_run _ _ _ _ Ho Hlo). step.
  rewrite Hw. step.
  rewrite bool_decide_false by done. step.
  rewrite add_to_balance_run by done. step.
  rewrite add_to_balance_run by done. step.
  rewrite post_transfer_run. step.
  eexists; split; [reflexivity|]. by cbn [store events].
Qed.

Lemma transfer_run_self env w t o data :
  store w !! mk_token_key t = Some o ->
  length o = 20%nat ->
  witness env o = true ->
  transfer o t data env w =
  Ok true (mkWorld (store w) (accesses w ++ [Read (mk_token_key t)])
             (events w ++ on_transfer (Some o) (Some o) 1 t ::
                hook_events env (Some o) (Some o) t data)).
Proof.
  intros Ho Hlo Hw. unfold transfer. unfold_prims.
  rewrite (len20 o Hlo). step. rewrite (get_owner_of_run _ _ _ _ Ho Hlo). step.
  rewrite Hw. step.
  rewrite bool_decide_true by done. step.
  by rewrite post_transfer_run.
Qed.

Lemma transfer_run_unauthorized env w to t o w1 data :
  length to = 20%nat ->
  get_owner_of t env w = Ok o w1 ->
  witness env o = false ->
  transfer to t data env w = Ok false w1.
Proof.
  intros Hlto Ho Hw. unfold transfer. unfold_prims.
  rewrite (len20 to Hlto). step. rewrite Ho. step. by rewrite Hw.
Qed.

Lemma get_owner_of_store env w t o w1 :
  get_owner_of t env w = Ok o w1 ->
  w1 = accessed (Read (mk_token_key t)) w.
Proof.
  unfold get_owner_of. unfold_prims.
  destruct (to_UInt160 _); [|done]. by intros [= _ <-].
Qed.

(** A successful transfer of a token with a 20-byte owner either leaves
    the store alone or moves the token. *)
Lemma transfer_inv env w t o to data b w' :
  store w !! mk_token_key t = Some o ->
  length o = 20%nat ->
  transfer to t data env w = Ok b w' ->
  store w' = store w
  \/ (o <> to /\ length to = 20%nat /\ store w' = transfer_store o to t (store w)).
Proof.
  intros Ho Hlo Hrun.
  destruct (decide (length to = 20%nat)) as [Hlto|Hlto]; cycle 1.
  { revert Hrun. unfold transfer. unfold_prims.
    by rewrite (proj2 (Nat.eqb_neq _ _) Hlto). }
  destruct (witness env o) eqn:Hw; cycle 1.
  { rewrite (transfer_run_unauthorized env w to t o _ data Hlto
               (get_owner_of_run _ _ _ _ Ho Hlo) Hw) in Hrun.
    injection Hrun as _ <-. by left. }
  destruct (decide (o = to)) as [<-|Hne].
  - rewrite transfer_run_self in Hrun by done. injection Hrun as _ <-. by left.
  - destruct (transfer_run_other env w t o to data Ho Hlo Hlto Hw Hne)
      as (w2 & E & Hs & _).
    rewrite E in Hrun. injection Hrun as _ <-. right. done.
Qed.

Lemma burn_run env w t o :
  store w !! mk_token_key t = Some o ->
  length o = 20%nat ->
  witness env o = true ->
  exists w', burn t env w = Ok true w'
    /\ store w' = burn_store o t (store w)
    /\ events w' = events w ++ [on_transfer (Some o) None 1 t].
Proof.
  intros Ho Hlo Hw. unfold burn, internal_burn. unfold_prims.
  rewrite (get_owner_of_run _ _ _ _ Ho Hlo). step.
  rewrite Hw. step.
  rewrite add_to_balance_run by done. step.
  rewrite post_transfer_run. step.
  eexists; split; [reflexivity|]. by cbn [store events].
Qed.

Lemma burn_inv env w t o b w' :
  store w !! mk_token_key t = Some o ->
  length o = 20%nat ->
  burn t env w = Ok b w' ->
  store w' = store w \/ store w' = burn_store o t (store w).
Proof.
  intros Ho Hlo Hrun.
  destruct (witness env o) eqn:Hw.
  - destruct (burn_run env w t o Ho Hlo Hw) as (w2 & E & Hs & _).
    rewrite E in Hrun. injection Hrun as _ <-. by right.
  - revert Hrun. unfold burn, internal_burn. unfold_prims.
    rewrite (get_owner_of_run _ _ _ _ Ho Hlo). step. rewrite Hw. step.
    intros [= _ <-]. by left.
Qed.

Lemma internal_mint_run env w account meta content data :
  length account = 20%nat ->
  exists w',
    internal_mint account meta content data env w
      = Ok (new_token_id env (store w) data) w'
    /\ store w' = mint_store account meta content
                    (new_token_id env (store w) data) (store w)
    /\ events w' = events w ++
         [ debug [list_byte_of_string "locked: "; content];
           debug [list_byte_of_string "locked2: "; content;
                  mk_locked_key (new_token_id env (store w) data)];
           on_transfer None (Some account) 1 (new_token_id env (store w) data) ]
         ++ hook_events env None (Some account)
              (new_token_id env (store w) data) None.
Proof.
  intros Hl. unfold internal_mint. unfold_prims.
  rewrite add_to_balance_run by done. step.
  rewrite post_transfer_run. step.
  rewrite lookup_insert_eq. step.
  destruct data as [d|]; (eexists; split; [|split]).
  all: try (unfold new_token_id, nft_data, token_count, read; reflexivity).
  all: try (cbn [store]; unfold mint_store, sup_add, supply, new_token_id,
              nft_data, token_count, read; reflexivity).
  all: cbn [events]; unfold new_token_id, nft_data, token_count, read;
    by rewrite <- !app_assoc.
Qed.

Lemma mint_run env w account meta content data :
  0 <= to_int (read (store w) MINT_FEE) ->
  gas_transfer env account (executing_script_hash env)
    (to_int (read (store w) MINT_FEE)) = true ->
  length account = 20%nat ->
  exists w',
    mint account meta content data env w
      = Ok (new_token_id env (store w) data) w'
    /\ store w' = mint_store account meta content
                    (new_token_id env (store w) data) (store w).
Proof.
  intros Hfee Hpaid Hl. unfold mint. unfold_prims. fold (read (store w) MINT_FEE).
  rewrite (proj2 (Z.ltb_ge _ _) Hfee). step. rewrite Hpaid. step.
  match goal with |- context [internal_mint _ _ _ _ env ?w0] =>
    destruct (internal_mint_run env w0 account meta content data Hl)
      as (w' & E & Hs & _) end.
  cbn [store] in *. rewrite E. eauto.
Qed.

Lemma internal_mint_fault env w account meta content data :
  length account <> 20%nat ->
  exists w', internal_mint account meta content data env w = Fault AssertionError w'.
Proof.
  intros Hl. unfold internal_mint. unfold_prims.
  rewrite add_to_balance_fault by done. eauto.
Qed.

(** What a successful mint must have been. *)
Lemma mint_inv env w account meta content data id w' :
  mint account meta content data env w = Ok id w' ->
  0 <= to_int (read (store w) MINT_FEE)
  /\ gas_transfer env account (executing_script_hash env)
       (to_int (read (store w) MINT_FEE)) = true
  /\ length account = 20%nat
  /\ id = new_token_id env (store w) data
  /\ store w' = mint_store account meta content id (store w).
Proof.
  intros Hrun.
  destruct (Z.ltb_spec (to_int (read (store w) MINT_FEE)) 0) as [Hneg|Hfee].
  { revert Hrun. unfold mint. unfold_prims. fold (read (store w) MINT_FEE).
    by rewrite (proj2 (Z.ltb_lt _ _) Hneg). }
  destruct (gas_transfer env account (executing_script_hash env)
              (to_int (read (store w) MINT_FEE))) eqn:Hpaid; cycle 1.
  { revert Hrun. unfold mint. unfold_prims. fold (read (store w) MINT_FEE).
    rewrite (proj2 (Z.ltb_ge _ _) Hfee). step. by rewrite Hpaid. }
  destruct (decide (length account = 20%nat)) as [Hl|Hl]; cycle 1.
  { revert Hrun. unfold mint. unfold_prims. fold (read (store w) MINT_FEE).
    rewrite (proj2 (Z.ltb_ge _ _) Hfee). step. rewrite Hpaid. step.
    match goal with |- context [internal_mint _ _ _ _ env ?w0] =>
      destruct (internal_mint_fault env w0 account meta content data Hl)
        as (w2 & E) end.
    by rewrite E. }
  destruct (mint_run env w account meta content data Hfee Hpaid Hl)
    as (w2 & E & Hs).
  rewrite E in Hrun. injection Hrun as <- <-. done.
Qed.

End Runs.

(** ** Keys *)

Ltac unfold_keys :=
  unfold mk_account_prefix, mk_balance_key, mk_token_key, mk_locked_key,
    mk_meta_key, mk_lv_key, ACCOUNT_PREFIX, TOKEN_PREFIX, LOCKED_PREFIX,
    BALANCE_PREFIX, SUPPLY_PREFIX, META_PREFIX, LOCKED_VIEW_COUNT, TOKEN_COUNT,
    MINT_FEE, AUTH_ADDRESSES, DEPLOYED, PAUSED, TOKEN_SYMBOL_B in *;
  cbn [app] in *.

(** Two keys that differ in a leading byte, or in what follows equal
    leading bytes. *)
Ltac keys := unfold_keys; congruence.

Lemma is_token_key_cons x r :
  is_token_key (x :: r) <-> x = "T"%byte /\ r <> ["C"%byte].
Proof.
  unfold is_token_key. unfold_keys. split.
  - intros [[l E] Hne]. injection E as -> _. split; [done|]. congruence.
  - intros [-> Hne]. split; [by exists r|]. congruence.
Qed.

Lemma is_token_key_mk t : is_token_key (mk_token_key t) <-> t <> ["C"%byte].
Proof. unfold mk_token_key. unfold_keys. rewrite is_token_key_cons. tauto. Qed.

Lemma is_token_key_minted z : is_token_key (mk_token_key (TOKEN_SYMBOL_B ++ z)).
Proof. apply is_token_key_mk. keys. Qed.

Ltac not_token_key :=
  unfold_keys;
  first [ rewrite is_token_key_cons; intros [? ?]; congruence
        | unfold is_token_key; unfold_keys; intros [[? ?] ?]; congruence ].

Lemma not_token_key_balance a : ~ is_token_key (mk_balance_key a).
Proof. not_token_key. Qed.
Lemma not_token_key_account a t : ~ is_token_key (mk_account_prefix a ++ t).
Proof. not_token_key. Qed.
Lemma not_token_key_meta t : ~ is_token_key (mk_meta_key t).
Proof. not_token_key. Qed.
Lemma not_token_key_locked t : ~ is_token_key (mk_locked_key t).
Proof. not_token_key. Qed.
Lemma not_token_key_supply : ~ is_token_key SUPPLY_PREFIX.
Proof. not_token_key. Qed.
Lemma not_token_key_count : ~ is_token_key TOKEN_COUNT.
Proof. unfold is_token_key. tauto. Qed.

Create HintDb keys.

#[global] Hint Resolve not_token_key_balance not_token_key_account
  not_token_key_meta not_token_key_locked not_token_key_supply
  not_token_key_count : keys.

(** ** Reading an updated store *)

Lemma read_insert_eq (s : gmap bytes bytes) k v : read (<[k:=v]> s) k = v.
Proof. unfold read. by rewrite lookup_insert_eq. Qed.
Lemma read_insert_ne (s : gmap bytes bytes) k k' v :
  k <> k' -> read (<[k:=v]> s) k' = read s k'.
Proof. intros. unfold read. by rewrite lookup_insert_ne. Qed.
Lemma read_delete_eq (s : gmap bytes bytes) k : read (delete k s) k = [].
Proof. unfold read. by rewrite lookup_delete_eq. Qed.
Lemma read_delete_ne (s : gmap bytes bytes) k k' :
  k <> k' -> read (delete k s) k' = read s k'.
Proof. intros. unfold read. by rewrite lookup_delete_ne. Qed.

Lemma lookup_bal_add (s : gmap bytes bytes) a d k :
  k <> mk_balance_key a -> bal_add a d s !! k = s !! k.
Proof.
  intros. unfold bal_add. destruct (_ >? 0).
  - by rewrite lookup_insert_ne.
  - by rewrite lookup_delete_ne.
Qed.

Lemma lookup_sup_add (s : gmap bytes bytes) d k :
  k <> SUPPLY_PREFIX -> sup_add d s !! k = s !! k.
Proof. intros. unfold sup_add. by rewrite lookup_insert_ne. Qed.

Lemma balance_bal_add_same s a d :
  0 <= balance s a + d -> balance (bal_add a d s) a = balance s a + d.
Proof.
  intros Hd. unfold bal_add. destruct (Z.gtb_spec (balance s a + d) 0).
  - unfold balance at 1. by rewrite read_insert_eq, to_int_int_to_bytes.
  - unfold balance at 1. rewrite read_delete_eq, to_int_nil. lia.
Qed.

Lemma balance_bal_add_other s a b d :
  a <> b -> balance (bal_add a d s) b = balance s b.
Proof.
  intros. unfold balance, read. rewrite lookup_bal_add; [done|]. keys.
Qed.

Lemma supply_sup_add s d : supply (sup_add d s) = supply s + d.
Proof. unfold sup_add. unfold supply at 1. by rewrite read_insert_eq, to_int_int_to_bytes. Qed.

(** ** Counting TokenOwner entries *)

Section Counting.
Implicit Types (s : gmap bytes bytes) (k v o a : bytes).

Lemma token_entries_insert_other s k v :
  ~ is_token_key k -> token_entries (<[k:=v]> s) = token_entries s.
Proof. intros. unfold token_entries. by apply map_filter_insert_not. Qed.

Lemma token_entries_delete_other s k :
  ~ is_token_key k -> token_entries (delete k s) = token_entries s.
Proof. intros. unfold token_entries. apply map_filter_delete_not. by intros. Qed.

Lemma token_entries_insert s k v :
  is_token_key k -> token_entries (<[k:=v]> s) = <[k:=v]> (token_entries s).
Proof. intros. unfold token_entries. by apply map_filter_insert_True. Qed.

Lemma token_entries_delete s k :
  token_entries (delete k s) = delete k (token_entries s).
Proof. unfold token_entries. apply map_filter_delete. Qed.

Lemma token_entries_lookup s k :
  is_token_key k -> token_entries s !! k = s !! k.
Proof.
  intros Hk. unfold token_entries. apply option_eq. intros v.
  rewrite map_lookup_filter_Some. cbn [fst]. tauto.
Qed.

Lemma token_entries_bal_add s a d : token_entries (bal_add a d s) = token_entries s.
Proof.
  unfold bal_add. destruct (_ >? 0).
  - apply token_entries_insert_other. auto with keys.
  - apply token_entries_delete_other. auto with keys.
Qed.

Lemma token_entries_sup_add s d : token_entries (sup_add d s) = token_entries s.
Proof. apply token_entries_insert_other. auto with keys. Qed.

(** The entries of one owner, among the TokenOwner entries. *)
Lemma entries_of_token_entries a s :
  entries_of a s = filter (fun kv => kv.2 = a) (token_entries s).
Proof.
  unfold entries_of, token_entries. apply map_eq. intros k. apply option_eq.
  intros v. rewrite !map_lookup_filter_Some. cbn [fst snd]. tauto.
Qed.

Lemma size_owner_insert (m : gmap bytes bytes) k v a :
  m !! k = None ->
  Z.of_nat (size (filter (fun kv : bytes * bytes => kv.2 = a) (<[k:=v]> m)))
  = Z.of_nat (size (filter (fun kv : bytes * bytes => kv.2 = a) m)) + owns v a.
Proof.
  intros Hk. unfold owns. rewrite map_filter_insert. cbn [snd].
  destruct (decide (v = a)).
  - rewrite map_size_insert_None; [lia|].
    rewrite map_lookup_filter_None. by left.
  - rewrite delete_id by done. lia.
Qed.

Lemma size_owner_delete (m : gmap bytes bytes) k o a :
  m !! k = Some o ->
  Z.of_nat (size (filter (fun kv : bytes * bytes => kv.2 = a) (delete k m)))
  = Z.of_nat (size (filter (fun kv : bytes * bytes => kv.2 = a) m)) - owns o a.
Proof.
  intros Hk. unfold owns. rewrite map_filter_delete.
  destruct (decide (o = a)) as [->|Hne].
  - assert (Hin : filter (fun kv : bytes * bytes => kv.2 = a) m !! k = Some a)
      by (by rewrite map_lookup_filter_Some).
    rewrite map_size_delete_Some by eauto.
    pose proof (map_size_ne_0_lookup_2 _ k (ex_intro _ _ Hin)). lia.
  - rewrite map_size_delete_None; [lia|].
    rewrite map_lookup_filter_None. right. intros x Hx. cbn. congruence.
Qed.

Lemma owned_count_insert_fresh s k v a :
  is_token_key k -> s !! k = None ->
  Z.of_nat (owned_count (<[k:=v]> s) a) = Z.of_nat (owned_count s a) + owns v a.
Proof.
  intros Hk Hs. unfold owned_count.
  rewrite !entries_of_token_entries, token_entries_insert by done.
  apply size_owner_insert. by rewrite token_entries_lookup.
Qed.

Lemma owned_count_delete s k o a :
  is_token_key k -> s !! k = Some o ->
  Z.of_nat (owned_count (delete k s) a) = Z.of_nat (owned_count s a) - owns o a.
Proof.
  intros Hk Hs. unfold owned_count.
  rewrite !entries_of_token_entries, token_entries_delete.
  apply size_owner_delete. by rewrite token_entries_lookup.
Qed.

Lemma owned_count_insert_live s k v o a :
  is_token_key k -> s !! k = Some o ->
  Z.of_nat (owned_count (<[k:=v]> s) a)
  = Z.of_nat (owned_count s a) - owns o a + owns v a.
Proof.
  intros Hk Hs. rewrite <- (insert_delete_eq s).
  rewrite owned_count_insert_fresh by (done || apply lookup_delete_eq).
  by rewrite (owned_count_delete s k o).
Qed.

Lemma owned_count_same_entries s s' a :
  token_entries s' = token_entries s -> owned_count s' a = owned_count s a.
Proof. intros E. unfold owned_count. by rewrite !entries_of_token_entries, E. Qed.

Lemma live_count_insert_fresh s k v :
  is_token_key k -> s !! k = None -> live_count (<[k:=v]> s) = S (live_count s).
Proof.
  intros Hk Hs. unfold live_count. rewrite token_entries_insert by done.
  apply map_size_insert_None. by rewrite token_entries_lookup.
Qed.

Lemma live_count_insert_live s k v :
  is_token_key k -> is_Some (s !! k) -> live_count (<[k:=v]> s) = live_count s.
Proof.
  intros Hk Hs. unfold live_count. rewrite token_entries_insert by done.
  apply map_size_insert_Some. by rewrite token_entries_lookup.
Qed.

Lemma live_count_delete s k :
  is_token_key k -> is_Some (s !! k) ->
  Z.of_nat (live_count (delete k s)) = Z.of_nat (live_count s) - 1.
Proof.
  intros Hk Hs. unfold live_count. rewrite token_entries_delete.
  assert (Hin : is_Some (token_entries s !! k)) by (by rewrite token_entries_lookup).
  rewrite map_size_delete_Some by done.
  pose proof (map_size_ne_0_lookup_2 _ k Hin). lia.
Qed.

End Counting.

(** ** The accounting invariant is kept *)

Section Invariant.
Context `{Host}.
Implicit Types (s : gmap bytes bytes) (t o a to : bytes).

Lemma owns_same a : owns a a = 1.
Proof. unfold owns. by rewrite decide_True. Qed.

Lemma owns_other o a : o <> a -> owns o a = 0.
Proof. intros. unfold owns. by rewrite decide_False. Qed.

Lemma owns_range o a : 0 <= owns o a <= 1.
Proof. unfold owns. destruct (decide _); lia. Qed.

Lemma balance_sup_add s d a : balance (sup_add d s) a = balance s a.
Proof. unfold sup_add, balance. rewrite read_insert_ne; [done|]. keys. Qed.

Lemma ledger_inv_empty : ledger_inv ∅.
Proof.
  split.
  - intros a _. unfold balance, read, owned_count, entries_of.
    by rewrite lookup_empty, map_filter_empty, map_size_empty.
  - unfold supply, read, live_count, token_entries.
    by rewrite lookup_empty, map_filter_empty, map_size_empty.
  - unfold token_entries. rewrite map_filter_empty. apply map_Forall_empty.
Qed.

(** Owners have a positive count. *)
Lemma owned_count_pos s k o :
  is_token_key k -> s !! k = Some o -> 1 <= Z.of_nat (owned_count s o).
Proof.
  intros Hk Hs.
  pose proof (owned_count_delete s k o o Hk Hs) as E. rewrite owns_same in E.
  lia.
Qed.

Lemma live_count_pos s k :
  is_token_key k -> is_Some (s !! k) -> 1 <= Z.of_nat (live_count s).
Proof. intros Hk Hs. pose proof (live_count_delete s k Hk Hs). lia. Qed.

Lemma ledger_inv_transfer s t o to :
  ledger_inv s ->
  is_token_key (mk_token_key t) -> s !! mk_token_key t = Some o ->
  length o = 20%nat -> length to = 20%nat -> o <> to ->
  ledger_inv (transfer_store o to t s).
Proof.
  intros [Hbal Hsup Hown] Hk Hs Hlo Hlto Hne. unfold transfer_store.
  set (s1 := bal_add o (-1) s).
  set (s2 := delete (mk_account_prefix o ++ t) s1).
  set (s3 := bal_add to 1 s2).
  set (s4 := <[mk_account_prefix to ++ t := t]> s3).
  assert (E4 : token_entries s4 = token_entries s).
  { unfold s4, s3, s2, s1.
    rewrite token_entries_insert_other by auto with keys.
    rewrite token_entries_bal_add.
    rewrite token_entries_delete_other by auto with keys.
    apply token_entries_bal_add. }
  assert (L4 : s4 !! mk_token_key t = Some o).
  { rewrite <- (token_entries_lookup s4), E4, token_entries_lookup; done. }
  assert (Hpos := owned_count_pos s _ o Hk Hs).
  assert (B1 : forall a, length a = 20%nat ->
             balance s4 a = Z.of_nat (owned_count s a) - owns o a + owns to a).
  { intros a Hla. unfold s4. unfold balance at 1.
    rewrite read_insert_ne by keys. fold (balance s3 a). unfold s3.
    destruct (decide (to = a)) as [<-|Hta].
    - rewrite balance_bal_add_same.
      + unfold s2. unfold balance. rewrite read_delete_ne by keys.
        fold (balance s1 to). unfold s1.
        rewrite balance_bal_add_other by done.
        rewrite owns_same, owns_other by done. rewrite Hbal by done. lia.
      + unfold s2. unfold balance. rewrite read_delete_ne by keys.
        fold (balance s1 to). unfold s1.
        rewrite balance_bal_add_other by done. rewrite Hbal by done. lia.
    - rewrite balance_bal_add_other by done.
      unfold s2. unfold balance. rewrite read_delete_ne by keys.
      fold (balance s1 a). unfold s1. rewrite (owns_other to a) by done.
      destruct (decide (o = a)) as [<-|Hoa].
      + rewrite balance_bal_add_same; rewrite Hbal by done; rewrite ?owns_same; lia.
      + rewrite balance_bal_add_other by done.
        rewrite owns_other by done. rewrite Hbal by done. lia. }
  split.
  - intros a Hla. unfold balance. rewrite read_insert_ne by keys.
    fold (balance s4 a). rewrite B1 by done.
    rewrite (owned_count_insert_live s4 _ to o a Hk L4).
    by rewrite (owned_count_same_entries s s4 a E4).
  - unfold supply. rewrite read_insert_ne by keys.
    rewrite live_count_insert_live by (done || by rewrite L4).
    unfold live_count. rewrite E4. fold (live_count s). rewrite <- Hsup.
    unfold s4, s3, s2, s1, supply, read.
    rewrite lookup_insert_ne by keys. rewrite lookup_bal_add by keys.
    rewrite lookup_delete_ne by keys. by rewrite lookup_bal_add by keys.
  - rewrite token_entries_insert by done. rewrite E4.
    by apply map_Forall_insert_2.
Qed.

Lemma ledger_inv_burn s t o :
  ledger_inv s ->
  is_token_key (mk_token_key t) -> s !! mk_token_key t = Some o ->
  length o = 20%nat ->
  ledger_inv (burn_store o t s).
Proof.
  intros [Hbal Hsup Hown] Hk Hs Hlo. unfold burn_store.
  set (s1 := delete (mk_account_prefix o ++ t) s).
  set (s2 := delete (mk_meta_key t) s1).
  assert (E2 : token_entries s2 = token_entries s).
  { unfold s2, s1. by rewrite !token_entries_delete_other by auto with keys. }
  assert (L2 : s2 !! mk_token_key t = Some o).
  { rewrite <- (token_entries_lookup s2), E2, token_entries_lookup; done. }
  set (s3 := delete (mk_token_key t) s2).
  set (s4 := bal_add o (-1) s3).
  assert (Hpos := owned_count_pos s _ o Hk Hs).
  assert (C3 : forall a, Z.of_nat (owned_count s3 a)
                         = Z.of_nat (owned_count s a) - owns o a).
  { intros a. unfold s3. rewrite (owned_count_delete s2 _ o a Hk L2).
    by rewrite (owned_count_same_entries s s2 a E2). }
  assert (B3 : forall a, balance s3 a = balance s a).
  { intros a. unfold s3, s2, s1, balance. by rewrite !read_delete_ne by keys. }
  split.
  - intros a Hla. rewrite balance_sup_add.
    rewrite (owned_count_same_entries s3) by
      (unfold s4; by rewrite token_entries_sup_add, token_entries_bal_add).
    fold s4. unfold s4.
    rewrite C3.
    destruct (decide (o = a)) as [<-|Hoa].
    + rewrite balance_bal_add_same; rewrite B3, Hbal by done;
        rewrite ?owns_same; lia.
    + rewrite balance_bal_add_other by done.
      rewrite owns_other by done. rewrite B3, Hbal by done. lia.
  - rewrite supply_sup_add. unfold s4.
    unfold live_count. rewrite token_entries_sup_add, token_entries_bal_add.
    fold (live_count s3). unfold s3.
    rewrite live_count_delete by (done || by rewrite L2).
    unfold live_count. rewrite E2. fold (live_count s). rewrite <- Hsup.
    unfold supply, read. rewrite lookup_bal_add by keys.
    unfold s2, s1. by rewrite !lookup_delete_ne by keys.
  - unfold s4. rewrite token_entries_sup_add, token_entries_bal_add. unfold s3.
    rewrite token_entries_delete, E2. by apply map_Forall_delete.
Qed.

Lemma ledger_inv_mint s account meta content id :
  ledger_inv s ->
  is_token_key (mk_token_key id) -> s !! mk_token_key id = None ->
  length account = 20%nat ->
  ledger_inv (mint_store account meta content id s).
Proof.
  intros [Hbal Hsup Hown] Hk Hs Hla. unfold mint_store.
  set (s1 := <[TOKEN_COUNT := int_to_bytes (token_count s + 1)]> s).
  set (s2 := <[mk_account_prefix account ++ id := id]> s1).
  set (s3 := <[mk_locked_key id := content]> s2).
  set (s4 := <[mk_meta_key id := json_serialize meta]> s3).
  assert (E4 : token_entries s4 = token_entries s).
  { unfold s4, s3, s2, s1. by rewrite !token_entries_insert_other by auto with keys. }
  assert (L4 : s4 !! mk_token_key id = None).
  { rewrite <- (token_entries_lookup s4), E4, token_entries_lookup; done. }
  set (s5 := <[mk_token_key id := account]> s4).
  assert (C5 : forall a, Z.of_nat (owned_count s5 a)
                         = Z.of_nat (owned_count s a) + owns account a).
  { intros a. unfold s5. rewrite (owned_count_insert_fresh s4 _ account a Hk L4).
    by rewrite (owned_count_same_entries s s4 a E4). }
  assert (B5 : forall a, balance s5 a = balance s a).
  { intros a. unfold s5, s4, s3, s2, s1, balance. by rewrite !read_insert_ne by keys. }
  split.
  - intros a Ha. rewrite balance_sup_add.
    rewrite (owned_count_same_entries s5) by
      (by rewrite token_entries_sup_add, token_entries_bal_add).
    rewrite C5.
    destruct (decide (account = a)) as [<-|Hoa].
    + rewrite balance_bal_add_same; rewrite B5, Hbal by done;
        rewrite ?owns_same; lia.
    + rewrite balance_bal_add_other by done.
      rewrite owns_other by done. rewrite B5, Hbal by done. lia.
  - rewrite supply_sup_add.
    unfold live_count. rewrite token_entries_sup_add, token_entries_bal_add.
    fold (live_count s5). unfold s5.
    rewrite live_count_insert_fresh by done.
    unfold live_count. rewrite E4. fold (live_count s).
    unfold supply, read. rewrite lookup_bal_add by keys.
    unfold s4, s3, s2, s1. rewrite !lookup_insert_ne by keys.
    fold (read s SUPPLY_PREFIX). fold (supply s). lia.
  - rewrite token_entries_sup_add, token_entries_bal_add. unfold s5.
    rewrite token_entries_insert, E4 by done. by apply map_Forall_insert_2.
Qed.

End Invariant.

(** ** Reachable states *)

Section Reachable.
Context `{Host}.

Lemma ledger_inv_insert_other (s : gmap bytes bytes) k v :
  ~ is_token_key k -> (forall a, k <> mk_balance_key a) -> k <> SUPPLY_PREFIX ->
  ledger_inv s -> ledger_inv (<[k:=v]> s).
Proof.
  intros Hk Hb Hs [Hbal Hsup Hown].
  assert (E : token_entries (<[k:=v]> s) = token_entries s)
    by (by apply token_entries_insert_other).
  split.
  - intros a Ha. unfold balance. rewrite read_insert_ne by apply Hb.
    rewrite (owned_count_same_entries s) by done. by apply Hbal.
  - unfold supply, live_count. rewrite read_insert_ne by done. by rewrite E.
  - by rewrite E.
Qed.

Lemma deploy_store env w :
  deploy env empty_world = Ok true w ->
  store w =
    <[AUTH_ADDRESSES := serialize (AList [OWNER])]>
      (<[MINT_FEE := int_to_bytes DEPLOY_FEE]>
         (<[TOKEN_COUNT := int_to_bytes 0]>
            (<[DEPLOYED := bool_to_bytes true]> ∅))).
Proof.
  unfold deploy, empty_world. unfold_prims. destruct (witness env OWNER); step; [|done].
  rewrite lookup_empty. step. cbn [to_bool forallb negb]. step.
  by intros [= <-].
Qed.

Lemma fresh_ledger_inv w : fresh w -> ledger_inv (store w).
Proof.
  intros [|env w' Hd].
  - apply ledger_inv_empty.
  - rewrite (deploy_store env w' Hd).
    repeat (apply ledger_inv_insert_other;
            [ first [ apply not_token_key_count | not_token_key ]
            | intros a; keys | keys | ]).
    apply ledger_inv_empty.
Qed.

Lemma live_owner (s : gmap bytes bytes) t :
  ledger_inv s -> live s t ->
  exists o, s !! mk_token_key t = Some o /\ length o = 20%nat.
Proof.
  intros [_ _ Hown] [Hk [o Ho]]. exists o. split; [done|].
  apply (Hown (mk_token_key t)). by rewrite token_entries_lookup.
Qed.

Lemma reachable_fresh_ids_inv w : reachable_fresh_ids w -> ledger_inv (store w).
Proof.
  induction 1 as [w Hf | w env account meta content data id w' _ IH Hnew Hrun
                 | w env t b w' _ IH Hlive Hrun
                 | w env to t data b w' _ IH Hlive Hrun].
  - by apply fresh_ledger_inv.
  - apply mint_inv in Hrun as (_ & _ & Hl & Hid & ->).
    apply ledger_inv_mint; try done. subst id. apply is_token_key_minted.
  - destruct (live_owner _ _ IH Hlive) as (o & Ho & Hlo).
    destruct (burn_inv env w t o b w' Ho Hlo Hrun) as [-> | ->]; [done|].
    apply ledger_inv_burn; try done. apply Hlive.
  - destruct (live_owner _ _ IH Hlive) as (o & Ho & Hlo).
    destruct (transfer_inv env w t o to data b w' Ho Hlo Hrun)
      as [-> | (Hne & Hlto & ->)]; [done|].
    apply ledger_inv_transfer; try done. apply Hlive.
Qed.

Lemma balanceOf_value a env w :
  length a = 20%nat -> value_of (balanceOf a env w) = Some (balance (store w) a).
Proof. intros Hl. unfold balanceOf. unfold_prims. by rewrite (len20 a Hl). Qed.

Lemma totalSupply_value env w : value_of (totalSupply env w) = Some (supply (store w)).
Proof. reflexivity. Qed.

End Reachable.

(** ** Keys a program leaves alone *)

Section Keeps.
Context `{Host}.
Variable k : bytes.

Lemma keeps_ret {A} (a : A) : keeps k (ret a).
Proof. by intros env w. Qed.

Lemma keeps_fail {A} e : keeps k (fail e : M A).
Proof. by intros env w. Qed.

Lemma keeps_raise {A} msg : keeps k (raise msg : M A).
Proof. by intros env w. Qed.

Lemma keeps_assert b : keeps k (assert b).
Proof. by destruct b. Qed.

Lemma keeps_ask {A} (f : Env -> A) : keeps k (ask f).
Proof. by intros env w. Qed.

Lemma keeps_notify e : keeps k (notify e).
Proof. by intros env w. Qed.

Lemma keeps_get key : keeps k (Storage.get key).
Proof. by intros env w. Qed.

Lemma keeps_find p : keeps k (Storage.find p).
Proof. by intros env w. Qed.

Lemma keeps_put key v : key <> k -> keeps k (Storage.put key v).
Proof. intros Hne env w. cbn. by rewrite lookup_insert_ne. Qed.

Lemma keeps_delete key : key <> k -> keeps k (Storage.delete key).
Proof. intros Hne env w. cbn. by rewrite lookup_delete_ne. Qed.

Lemma keeps_bind {A B} (m : M A) (f : A -> M B) :
  keeps k m -> (forall a, keeps k (f a)) -> keeps k (bind m f).
Proof.
  intros Hm Hf env w. unfold bind. specialize (Hm env w).
  destruct (m env w) as [a w1|e w1]; cbn in *; [|done].
  by rewrite Hf.
Qed.

Lemma keeps_ok {A} (m : M A) env w a w' :
  keeps k m -> m env w = Ok a w' -> store w' !! k = store w !! k.
Proof. intros Hm E. specialize (Hm env w). by rewrite E in Hm. Qed.

End Keeps.

Ltac keeps_step :=
  first
    [ apply keeps_ret | apply keeps_fail | apply keeps_raise
    | apply keeps_assert | apply keeps_ask | apply keeps_notify
    | apply keeps_get | apply keeps_find
    | apply keeps_put; keys | apply keeps_delete; keys
    | apply keeps_bind; [|intros ?]
    | match goal with
      | |- keeps _ (if ?c then _ else _) => destruct c
      | |- keeps _ (match ?x with _ => _ end) => destruct x
      end ].

Ltac keeps_auto :=
  unfold symbol, totalSupply, balanceOf, tokensOf, get_meta, remove_meta,
    add_meta, add_token, remove_token, remove_owner_of, set_owner_of,
    get_owner_of, UInt160, add_locked_content, get_locked_content,
    remove_locked_content, get_mint_fee, set_mint_fee,
    get_locked_view_counter, incr_locked_view_counter, add_to_supply,
    add_to_balance, post_transfer, check_witness, verify;
  repeat keeps_step.

Section LockedContent.
Context `{Host}.
Variable id : bytes.

Lemma keeps_locked_transfer to t data : keeps (mk_locked_key id) (transfer to t data).
Proof. unfold transfer. keeps_auto. Qed.

Lemma keeps_locked_burn t : keeps (mk_locked_key id) (burn t).
Proof. unfold burn, internal_burn. keeps_auto. Qed.

Lemma keeps_locked_multiBurn ts : keeps (mk_locked_key id) (multiBurn ts).
Proof.
  induction ts as [|t ts IH]; cbn [multiBurn]; [apply keeps_ret|].
  apply keeps_bind; [apply keeps_locked_burn|]. intros b.
  apply keeps_bind; [apply IH|]. intros bs. apply keeps_ret.
Qed.

Lemma keeps_locked_getLockedContent t : keeps (mk_locked_key id) (getLockedContent t).
Proof. unfold getLockedContent. keeps_auto. Qed.

Lemma keeps_locked_set_authorized_address a b :
  keeps (mk_locked_key id) (set_authorized_address a b).
Proof. unfold set_authorized_address. keeps_auto. Qed.

Lemma keeps_locked_setMintFee fee : keeps (mk_locked_key id) (setMintFee fee).
Proof. unfold setMintFee. keeps_auto. Qed.

Lemma keeps_locked_deploy : keeps (mk_locked_key id) deploy.
Proof. unfold deploy. keeps_auto. Qed.

Lemma lookup_mint_store_locked_other (account meta content id' : bytes)
    (s : gmap bytes bytes) :
  id' <> id ->
  mint_store account meta content id' s !! mk_locked_key id = s !! mk_locked_key id.
Proof.
  intros Hne. unfold mint_store.
  rewrite lookup_sup_add by keys. rewrite lookup_bal_add by keys.
  by rewrite !lookup_insert_ne by keys.
Qed.

Lemma lookup_mint_store_locked (account meta content : bytes)
    (s : gmap bytes bytes) :
  mint_store account meta content id s !! mk_locked_key id = Some content.
Proof.
  unfold mint_store.
  rewrite lookup_sup_add by keys. rewrite lookup_bal_add by keys.
  rewrite !lookup_insert_ne by keys. apply lookup_insert_eq.
Qed.

Lemma multiMint_locked account metas contents data env w ids w' :
  multiMint account metas contents data env w = Ok ids w' ->
  id ∉ ids ->
  store w' !! mk_locked_key id = store w !! mk_locked_key id.
Proof.
  revert contents env w ids w'.
  induction metas as [|m metas IH]; intros contents env w ids w' Hrun Hnot.
  - cbn in Hrun. by injection Hrun as _ <-.
  - cbn [multiMint] in Hrun. destruct contents as [|c contents]; [done|].
    unfold bind in Hrun.
    destruct (mint account m c data env w) as [t w1|] eqn:E1; [|done].
    destruct (multiMint account metas contents data env w1) as [ts w2|] eqn:E2;
      [|done].
    cbn in Hrun. injection Hrun as <- <-.
    apply not_elem_of_cons in Hnot as [Hne Hnot].
    rewrite (IH _ _ _ _ _ E2 Hnot).
    apply mint_inv in E1 as (_ & _ & _ & _ & ->).
    by apply lookup_mint_store_locked_other.
Qed.

(** The LockedContent entry of [id] changes only when [id] is minted. *)
Lemma later_locked w0 w :
  later id w0 w -> store w !! mk_locked_key id = store w0 !! mk_locked_key id.
Proof.
  induction 1 as [ w | w0 w w' _ IH E
    | w0 w env to t data b w' _ IH E | w0 w env t b w' _ IH E
    | w0 w env ts bs w' _ IH E
    | w0 w env account meta content data id' w' _ IH E Hne
    | w0 w env account metas contents data ids w' _ IH E Hnot
    | w0 w env t c w' _ IH E | w0 w env a b r w' _ IH E
    | w0 w env fee r w' _ IH E | w0 w env r w' _ IH E ];
    try done; rewrite <- IH.
  - by rewrite E.
  - exact (keeps_ok _ _ _ _ _ _ (keeps_locked_transfer to t data) E).
  - exact (keeps_ok _ _ _ _ _ _ (keeps_locked_burn t) E).
  - exact (keeps_ok _ _ _ _ _ _ (keeps_locked_multiBurn ts) E).
  - apply mint_inv in E as (_ & _ & _ & _ & ->).
    by apply lookup_mint_store_locked_other.
  - by eapply multiMint_locked.
  - exact (keeps_ok _ _ _ _ _ _ (keeps_locked_getLockedContent t) E).
  - exact (keeps_ok _ _ _ _ _ _ (keeps_locked_set_authorized_address a b) E).
  - exact (keeps_ok _ _ _ _ _ _ (keeps_locked_setMintFee fee) E).
  - exact (keeps_ok _ _ _ _ _ _ keeps_locked_deploy E).
Qed.

End LockedContent.

(** * The claims *)

Section Claims.
Context `{Host}.

(** C1 (the code departs from its docstring).  [ownerOf] consists of its
    docstring alone: for every token, live or not, and in every state, the
    call returns [None] and reads nothing, so it does not return the stored
    owner. *)
Theorem ownerOf_returns_nothing tokenId env w :
  ownerOf tokenId env w = Ok None w.
Proof. reflexivity. Qed.

(** C10.  When the address argument is not 20 bytes long, [balanceOf],
    [tokensOf] and [transfer] fail on their assertion in the world they
    were called in: no storage key has been read or written and nothing
    has been notified. *)
Theorem bad_address_fails_before_storage (a : bytes) env w :
  length a <> 20%nat ->
  balanceOf a env w = Fault AssertionError w
  /\ tokensOf a env w = Fault AssertionError w
  /\ forall t d, transfer a t d env w = Fault AssertionError w.
Proof.
  intros Hlen. apply Nat.eqb_neq in Hlen.
  repeat split; intros; unfold transfer; unfold_prims; by rewrite Hlen.
Qed.

(** C3.  A transfer of a live token to its own witness-authorized owner
    returns true, notifies one Transfer from the owner to the owner (and
    the receiver hook when the owner is a contract), and leaves the store
    as it was: the only storage access is the read of the TokenOwner
    entry. *)
Theorem transfer_to_self_keeps_store env w t o data :
  store w !! mk_token_key t = Some o ->
  length o = 20%nat ->
  witness env o = true ->
  exists w', transfer o t data env w = Ok true w'
    /\ store w' = store w
    /\ accesses w' = accesses w ++ [Read (mk_token_key t)]
    /\ events w' = events w ++ on_transfer (Some o) (Some o) 1 t
                     :: hook_events env (Some o) (Some o) t data.
Proof.
  intros Ho Hlo Hw. eexists. split; [by apply transfer_run_self|]. done.
Qed.

(** C4.  When the owner that [get_owner_of] finds for the token is not
    witness-authorized, a transfer to a 20-byte address returns false (it
    does not fail), the store is unchanged (balances, index and owner
    entries keep their values) and nothing is notified. *)
Theorem transfer_unauthorized_soft_fails env w to t data o w1 :
  length to = 20%nat ->
  get_owner_of t env w = Ok o w1 ->
  witness env o = false ->
  transfer to t data env w = Ok false w1
  /\ store w1 = store w
  /\ events w1 = events w
  /\ (forall a, balance (store w1) a = balance (store w) a)
  /\ (forall k, store w1 !! k = store w !! k).
Proof.
  intros Hlto Ho Hw. split; [by eapply transfer_run_unauthorized|].
  apply get_owner_of_store in Ho as ->. done.
Qed.

(** C2 (the code falls short of the claim).  Burning a live token whose
    owner is witness-authorized returns true and removes the TokenOwner
    entry, the OwnerToken index entry and the Metadata entry, lowers the
    balance of the owner and the supply by one -- but the LockedContent
    entry is left exactly as it was: [remove_locked_content] is never
    called. *)
Theorem burn_leaves_locked_content env w t o :
  store w !! mk_token_key t = Some o ->
  length o = 20%nat ->
  witness env o = true ->
  exists w', burn t env w = Ok true w'
    /\ store w' !! mk_token_key t = None
    /\ store w' !! (mk_account_prefix o ++ t) = None
    /\ store w' !! mk_meta_key t = None
    /\ supply (store w') = supply (store w) - 1
    /\ (1 <= balance (store w) o -> balance (store w') o = balance (store w) o - 1)
    /\ store w' !! mk_locked_key t = store w !! mk_locked_key t.
Proof.
  intros Ho Hlo Hw.
  destruct (burn_run env w t o Ho Hlo Hw) as (w' & E & Hs & _).
  exists w'. split; [done|]. rewrite Hs. unfold burn_store.
  repeat split.
  - rewrite lookup_sup_add by keys. rewrite lookup_bal_add by keys.
    apply lookup_delete_eq.
  - rewrite lookup_sup_add by keys. rewrite lookup_bal_add by keys.
    rewrite !lookup_delete_ne by keys. apply lookup_delete_eq.
  - rewrite lookup_sup_add by keys. rewrite lookup_bal_add by keys.
    rewrite lookup_delete_ne by keys. apply lookup_delete_eq.
  - rewrite supply_sup_add. unfold supply, read.
    rewrite lookup_bal_add by keys. by rewrite !lookup_delete_ne by keys.
  - intros Hpos. rewrite balance_sup_add.
    assert (E0 : balance (delete (mk_token_key t)
                   (delete (mk_meta_key t)
                      (delete (mk_account_prefix o ++ t) (store w)))) o
                 = balance (store w) o).
    { unfold balance. by rewrite !read_delete_ne by keys. }
    rewrite balance_bal_add_same; rewrite E0; lia.
  - rewrite lookup_sup_add by keys. rewrite lookup_bal_add by keys.
    by rewrite !lookup_delete_ne by keys.
Qed.

Lemma found_in_spec (l : list bytes) (a : bytes) :
  found_in l a = bool_decide (a ∈ l).
Proof.
  unfold found_in.
  assert (G : forall acc,
    fold_left (fun found i => if bool_decide (i = a) then true else found) l acc
    = acc || bool_decide (a ∈ l)).
  { induction l as [|x l IH]; intros acc; cbn [fold_left].
    - rewrite bool_decide_false by apply not_elem_of_nil. by rewrite orb_false_r.
    - rewrite IH. destruct (decide (x = a)) as [->|Hne].
      + rewrite bool_decide_true by done.
        rewrite (bool_decide_true (a ∈ a :: l)) by apply list_elem_of_here.
        by rewrite orb_true_r.
      + rewrite bool_decide_false by done. f_equal.
        apply bool_decide_ext. rewrite elem_of_cons.
        split; [by right | intros [E|?]; [by subst | done]]. }
  by rewrite G.
Qed.

(** Adding an address with the owner's witness: the stored list is the old
    one, with the address appended when it was missing. *)
Lemma set_authorized_address_add_run env w a l :
  witness env OWNER = true ->
  deserialize (read (store w) AUTH_ADDRESSES) = Some (AList l) ->
  exists w', set_authorized_address a true env w = Ok true w'
    /\ store w' = <[AUTH_ADDRESSES :=
                     serialize (AList (if bool_decide (a ∈ l) then l else l ++ [a]))]>
                    (store w)
    /\ events w' = events w ++ [on_auth a true].
Proof.
  intros Hw Hl. unfold set_authorized_address. unfold_prims.
  rewrite Hw. step. fold (read (store w) AUTH_ADDRESSES). rewrite Hl. step.
  rewrite found_in_spec.
  destruct (bool_decide (a ∈ l)); step; eexists; (split; [reflexivity|]); done.
Qed.

Lemma set_authorized_address_add_inv env w a w' :
  set_authorized_address a true env w = Ok true w' ->
  exists l, a ∈ l /\
    store w' = <[AUTH_ADDRESSES := serialize (AList l)]> (store w).
Proof.
  intros Hrun.
  destruct (witness env OWNER) eqn:Hw; cycle 1.
  { revert Hrun. unfold set_authorized_address. unfold_prims. by rewrite Hw. }
  destruct (deserialize (read (store w) AUTH_ADDRESSES)) as [[| | |l]|] eqn:Hl;
    try (revert Hrun; unfold set_authorized_address; unfold_prims;
         rewrite Hw; step; fold (read (store w) AUTH_ADDRESSES);
         by rewrite Hl).
  destruct (set_authorized_address_add_run env w a l Hw Hl) as (w2 & E & Hs & _).
  rewrite E in Hrun. injection Hrun as <-.
  eexists. split; [|exact Hs].
  destruct (bool_decide (a ∈ l)) eqn:Hin.
  - by apply bool_decide_eq_true in Hin.
  - apply elem_of_app. right. apply list_elem_of_here.
Qed.

(** C9.  Adding, with the owner's witness, an address that is already in
    the stored list returns true and stores the same list: nothing is
    appended, and when the stored bytes are the serialization of the list
    the whole store is unchanged.  Also, after any successful add of an
    address, a second add of that address leaves the store as the first
    one left it. *)
Theorem set_authorized_address_idempotent :
  (forall env w a l,
     witness env OWNER = true ->
     deserialize (read (store w) AUTH_ADDRESSES) = Some (AList l) ->
     a ∈ l ->
     exists w', set_authorized_address a true env w = Ok true w'
       /\ deserialize (read (store w') AUTH_ADDRESSES) = Some (AList l)
       /\ (store w !! AUTH_ADDRESSES = Some (serialize (AList l)) ->
           store w' = store w))
  /\ (forall env1 env2 w0 a w1,
        set_authorized_address a true env1 w0 = Ok true w1 ->
        witness env2 OWNER = true ->
        exists w2, set_authorized_address a true env2 w1 = Ok true w2
          /\ store w2 = store w1).
Proof.
  split.
  - intros env w a l Hw Hl Hin.
    destruct (set_authorized_address_add_run env w a l Hw Hl) as (w' & E & Hs & _).
    rewrite bool_decide_true in Hs by done.
    exists w'. split; [done|]. rewrite Hs. split.
    + by rewrite read_insert_eq, deserialize_serialize.
    + intros Hst. by apply insert_id.
  - intros env1 env2 w0 a w1 Hrun Hw.
    apply set_authorized_address_add_inv in Hrun as (l & Hin & Hs).
    assert (Hl : deserialize (read (store w1) AUTH_ADDRESSES) = Some (AList l))
      by (by rewrite Hs, read_insert_eq, deserialize_serialize).
    destruct (set_authorized_address_add_run env2 w1 a l Hw Hl) as (w2 & E & Hs2 & _).
    rewrite bool_decide_true in Hs2 by done.
    exists w2. split; [done|]. rewrite Hs2, Hs. apply insert_insert_eq.
Qed.

End Claims.

Section MoreClaims.
Context `{Host}.

Lemma getLockedContent_run env w t o :
  store w !! mk_token_key t = Some o ->
  length o = 20%nat ->
  witness env o = true ->
  exists w', getLockedContent t env w = Ok (read (store w) (mk_locked_key t)) w'
    /\ store w' = <[mk_lv_key t := int_to_bytes (view_count (store w) t + 1)]>
                    (store w).
Proof.
  intros Ho Hlo Hw. unfold getLockedContent. unfold_prims.
  rewrite (get_owner_of_run _ _ _ _ Ho Hlo). step. rewrite Hw. step.
  rewrite lookup_insert_ne by keys.
  eexists. split; [reflexivity|]. done.
Qed.

Lemma getLockedContent_denied env w t o :
  store w !! mk_token_key t = Some o ->
  length o = 20%nat ->
  witness env o = false ->
  getLockedContent t env w
  = Fault (Exception "Prohibited access to locked content!")
      (accessed (Read (mk_token_key t)) w).
Proof.
  intros Ho Hlo Hw. unfold getLockedContent. unfold_prims.
  rewrite (get_owner_of_run _ _ _ _ Ho Hlo). step. by rewrite Hw.
Qed.

(** C5.  Let [id] be a token minted with the payload [content], and let
    any public calls have followed, none of them a mint that issued [id]
    again.  If [id] is live, then [getLockedContent] called with the
    witness of its current owner returns [content] and raises the view
    counter of [id] by exactly one; called without that witness it fails
    with the access-denied exception, in a world whose store, and so the
    view counter, is unchanged. *)
Theorem locked_content_gating
    env0 w0 account meta content data id w1 w env o :
  mint account meta content data env0 w0 = Ok id w1 ->
  later id w1 w ->
  store w !! mk_token_key id = Some o ->
  length o = 20%nat ->
  (witness env o = true ->
   exists w', getLockedContent id env w = Ok content w'
     /\ view_count (store w') id = view_count (store w) id + 1
     /\ forall env', value_of (getLockedContentViewCount id env' w')
                     = Some (view_count (store w) id + 1))
  /\ (witness env o = false ->
      exists w', getLockedContent id env w
                 = Fault (Exception "Prohibited access to locked content!") w'
        /\ store w' = store w
        /\ view_count (store w') id = view_count (store w) id).
Proof.
  intros Hmint Hlater Ho Hlo.
  assert (Hc : read (store w) (mk_locked_key id) = content).
  { unfold read. rewrite (later_locked id w1 w Hlater).
    apply mint_inv in Hmint as (_ & _ & _ & _ & ->).
    by rewrite lookup_mint_store_locked. }
  split; intros Hw.
  - destruct (getLockedContent_run env w id o Ho Hlo Hw) as (w' & E & Hs).
    rewrite Hc in E. exists w'. split; [done|].
    assert (Hv : view_count (store w') id = view_count (store w) id + 1).
    { rewrite Hs. unfold view_count at 1.
      by rewrite read_insert_eq, to_int_int_to_bytes. }
    split; [done|]. intros env'. cbn. f_equal. exact Hv.
  - rewrite (getLockedContent_denied env w id o Ho Hlo Hw).
    eexists. split; [reflexivity|]. done.
Qed.

Lemma token_entries_mint_store (account meta content id : bytes)
    (s : gmap bytes bytes) :
  is_token_key (mk_token_key id) ->
  token_entries (mint_store account meta content id s)
  = <[mk_token_key id := account]> (token_entries s).
Proof.
  intros Hk. unfold mint_store.
  rewrite token_entries_sup_add, token_entries_bal_add.
  rewrite token_entries_insert by done.
  by rewrite !token_entries_insert_other by auto with keys.
Qed.

Lemma token_count_mint_store (account meta content z : bytes)
    (s : gmap bytes bytes) :
  token_count (mint_store account meta content (TOKEN_SYMBOL_B ++ z) s)
  = token_count s + 1.
Proof.
  unfold mint_store, token_count, read.
  rewrite lookup_sup_add by keys. rewrite lookup_bal_add by keys.
  rewrite !lookup_insert_ne by keys. rewrite lookup_insert_eq. cbn.
  apply to_int_int_to_bytes.
Qed.

(** C6, as amended.  When the configured mint fee is negative, or the
    fee-token transfer from the payer fails, [mint] fails with an exception
    in a world whose store is the one it was called in: no token is
    created and the token counter is not incremented.  When the fee is not
    negative (0 for instance), the transfer succeeds, the account is a
    20-byte address other than the executing contract (whose own
    [onNEP11Payment] aborts) and the integers of the call are within those
    of the host, [mint] returns the identifier derived from the counter,
    the transaction hash and the data, advances the counter by one and
    makes that identifier live with the account as owner, leaving every
    other TokenOwner entry alone; this is one new token exactly when the
    identifier was not live before. *)
Theorem mint_fee_precondition env w account meta content data :
  (mint_fee (store w) < 0 ->
   exists w', mint account meta content data env w
              = Fault (Exception "Mint fee can't be < 0") w'
     /\ store w' = store w)
  /\ (0 <= mint_fee (store w) ->
      gas_transfer env account (executing_script_hash env)
        (mint_fee (store w)) = false ->
      exists w', mint account meta content data env w
                 = Fault (Exception "Fee payment failed!") w'
        /\ store w' = store w)
  /\ (0 <= mint_fee (store w) ->
      gas_transfer env account (executing_script_hash env)
        (mint_fee (store w)) = true ->
      length account = 20%nat ->
      account <> executing_script_hash env ->
      mint_in_range env (store w) account data ->
      exists w',
        mint account meta content data env w
        = Ok (new_token_id env (store w) data) w'
        /\ token_count (store w') = token_count (store w) + 1
        /\ token_entries (store w')
           = <[mk_token_key (new_token_id env (store w) data) := account]>
               (token_entries (store w))
        /\ (store w !! mk_token_key (new_token_id env (store w) data) = None ->
            live_count (store w') = S (live_count (store w)))
        /\ (is_Some (store w !! mk_token_key (new_token_id env (store w) data)) ->
            live_count (store w') = live_count (store w))).
Proof.
  unfold mint_fee. repeat split.
  - intros Hneg. unfold mint. unfold_prims. fold (read (store w) MINT_FEE).
    rewrite (proj2 (Z.ltb_lt _ _) Hneg). eexists. split; [reflexivity|]. done.
  - intros Hfee Hpaid. unfold mint. unfold_prims. fold (read (store w) MINT_FEE).
    rewrite (proj2 (Z.ltb_ge _ _) Hfee). step. rewrite Hpaid. step.
    eexists. split; [reflexivity|]. done.
  - intros Hfee Hpaid Hl _ _.
    destruct (mint_run env w account meta content data Hfee Hpaid Hl)
      as (w' & E & Hs).
    exists w'. split; [done|]. rewrite Hs.
    assert (Hk : is_token_key (mk_token_key (new_token_id env (store w) data)))
      by apply is_token_key_minted.
    split; [apply token_count_mint_store|].
    split; [by apply token_entries_mint_store|].
    unfold live_count. rewrite token_entries_mint_store by done. split.
    + intros Hnew. apply map_size_insert_None. by rewrite token_entries_lookup.
    + intros Hold. apply map_size_insert_Some. by rewrite token_entries_lookup.
Qed.

(** C7, as amended.  In every state reached from a freshly deployed
    contract by mint, burn and transfer calls, where each mint derived an
    identifier that was not live at that moment and burn and transfer were
    called on live tokens, [balanceOf(a)] is the number of live tokens
    whose stored owner is [a], for every 20-byte address [a], and
    [totalSupply()] is the number of live tokens. *)
Theorem accounting_invariant_fresh_ids w :
  reachable_fresh_ids w ->
  (forall a env, length a = 20%nat ->
     value_of (balanceOf a env w) = Some (Z.of_nat (owned_count (store w) a)))
  /\ (forall env,
        value_of (totalSupply env w) = Some (Z.of_nat (live_count (store w)))).
Proof.
  intros Hr. destruct (reachable_fresh_ids_inv w Hr) as [Hbal Hsup _]. split.
  - intros a env Ha. rewrite balanceOf_value by done. by rewrite Hbal.
  - intros env. by rewrite totalSupply_value, Hsup.
Qed.

Lemma new_token_id_inj env1 s1 d1 env2 s2 d2 :
  new_token_id env1 s1 d1 = new_token_id env2 s2 d2
  <-> nft_data env1 s1 d1 = nft_data env2 s2 d2.
Proof.
  unfold new_token_id. split.
  - intros E. apply app_inv_head in E. by apply int_to_bytes_inj.
  - by intros ->.
Qed.

(** C8, as amended.  A successful mint returns the token symbol followed
    by the bytes of the sum of the transaction hash, the incremented token
    counter and the serialized data, and advances the counter by one.  So
    two successful mints return the same identifier exactly when these
    sums are equal; in particular a mint that directly follows another in
    the same transaction with the same data returns a different
    identifier. *)
Theorem mint_ids_equal_iff_sums_equal
    env1 w1 a1 m1 c1 d1 id1 w1' env2 w2 a2 m2 c2 d2 id2 w2' :
  mint a1 m1 c1 d1 env1 w1 = Ok id1 w1' ->
  mint a2 m2 c2 d2 env2 w2 = Ok id2 w2' ->
  (id1 = id2 <-> nft_data env1 (store w1) d1 = nft_data env2 (store w2) d2)
  /\ token_count (store w1') = token_count (store w1) + 1
  /\ (w2 = w1' -> tx_hash env2 = tx_hash env1 -> d2 = d1 -> id1 <> id2).
Proof.
  intros E1 E2.
  apply mint_inv in E1 as (_ & _ & _ & -> & Hs1).
  apply mint_inv in E2 as (_ & _ & _ & -> & Hs2).
  assert (Hc : token_count (store w1') = token_count (store w1) + 1).
  { rewrite Hs1. apply token_count_mint_store. }
  split; [apply new_token_id_inj|]. split; [done|].
  intros -> Hh ->. rewrite new_token_id_inj. unfold nft_data.
  rewrite Hh, Hc. destruct d1; lia.
Qed.

End MoreClaims.

(** * Further properties of the contract *)

Section Deploy.
Context `{Host}.

Lemma to_bool_true : to_bool (bool_to_bytes true) = true.
Proof. reflexivity. Qed.

Lemma deploy_run env w :
  witness env OWNER = true ->
  to_bool (read (store w) DEPLOYED) = false ->
  exists w', deploy env w = Ok true w'
    /\ store w' = deploy_store_of (store w)
    /\ events w' = events w ++ [on_deploy OWNER TOKEN_SYMBOL].
Proof.
  intros Hw Hd. unfold deploy. unfold_prims. rewrite Hw. step.
  fold (read (store w) DEPLOYED). rewrite Hd. step.
  eexists. split; [reflexivity|]. done.
Qed.

Lemma deploy_true_inv env w w' :
  deploy env w = Ok true w' ->
  witness env OWNER = true
  /\ to_bool (read (store w) DEPLOYED) = false
  /\ store w' = deploy_store_of (store w).
Proof.
  intros Hrun.
  destruct (witness env OWNER) eqn:Hw; cycle 1.
  { revert Hrun. unfold deploy. unfold_prims. by rewrite Hw. }
  destruct (to_bool (read (store w) DEPLOYED)) eqn:Hd.
  { revert Hrun. unfold deploy. unfold_prims. rewrite Hw. step.
    fold (read (store w) DEPLOYED). by rewrite Hd. }
  destruct (deploy_run env w Hw Hd) as (w2 & E & Hs & _).
  rewrite E in Hrun. by injection Hrun as <-.
Qed.

(** X1.  On a store whose deployed flag is unset, [deploy] with the
    owner's witness returns true, sets the flag, sets the token counter to
    0 (whatever it was), the mint fee to [DEPLOY_FEE] and the authorized
    list to the owner alone, notifies Deploy, and leaves every TokenOwner
    entry, every balance and the supply as they were. *)
Theorem deploy_initializes env w :
  witness env OWNER = true ->
  to_bool (read (store w) DEPLOYED) = false ->
  exists w', deploy env w = Ok true w'
    /\ to_bool (read (store w') DEPLOYED) = true
    /\ token_count (store w') = 0
    /\ mint_fee (store w') = DEPLOY_FEE
    /\ deserialize (read (store w') AUTH_ADDRESSES) = Some (AList [OWNER])
    /\ token_entries (store w') = token_entries (store w)
    /\ supply (store w') = supply (store w)
    /\ (forall a, balance (store w') a = balance (store w) a)
    /\ events w' = events w ++ [on_deploy OWNER TOKEN_SYMBOL].
Proof.
  intros Hw Hd. destruct (deploy_run env w Hw Hd) as (w' & E & Hs & Hev).
  exists w'. split; [done|]. rewrite Hs. unfold deploy_store_of.
  repeat split; try done.
  - unfold read. rewrite !lookup_insert_ne by keys. by rewrite lookup_insert_eq.
  - unfold token_count, read. rewrite !lookup_insert_ne by keys.
    rewrite lookup_insert_eq. apply to_int_int_to_bytes.
  - unfold mint_fee, read. rewrite lookup_insert_ne by keys.
    rewrite lookup_insert_eq. apply to_int_int_to_bytes.
  - by rewrite read_insert_eq, deserialize_serialize.
  - rewrite !token_entries_insert_other; [done | not_token_key
      | apply not_token_key_count | not_token_key | not_token_key ].
  - unfold supply. by rewrite !read_insert_ne by keys.
  - intros a. unfold balance. by rewrite !read_insert_ne by keys.
Qed.

(** X2.  After a successful [deploy], every further [deploy], with or
    without the owner's witness, returns false, stores nothing and
    notifies nothing. *)
Theorem deploy_only_once env w w1 :
  deploy env w = Ok true w1 ->
  forall env', exists w2,
    deploy env' w1 = Ok false w2
    /\ store w2 = store w1 /\ events w2 = events w1.
Proof.
  intros Hrun env'. apply deploy_true_inv in Hrun as (_ & _ & Hs).
  assert (Hd : to_bool (read (store w1) DEPLOYED) = true).
  { rewrite Hs. unfold deploy_store_of, read.
    rewrite !lookup_insert_ne by keys. by rewrite lookup_insert_eq. }
  unfold deploy. unfold_prims. destruct (witness env' OWNER); step.
  - fold (read (store w1) DEPLOYED). rewrite Hd.
    eexists. split; [reflexivity|]. done.
  - eexists. split; [reflexivity|]. done.
Qed.

End Deploy.

Section Ledger.
Context `{Host}.

(** X3.  When the owner that [get_owner_of] finds for the token is not
    witness-authorized, [burn] returns false (it does not fail), the store
    is unchanged and nothing is notified. *)
Theorem burn_unauthorized_soft_fails env w t o w1 :
  get_owner_of t env w = Ok o w1 ->
  witness env o = false ->
  burn t env w = Ok false w1
  /\ store w1 = store w
  /\ events w1 = events w.
Proof.
  intros Ho Hw. split.
  - unfold burn, internal_burn. unfold_prims. rewrite Ho. step. by rewrite Hw.
  - apply get_owner_of_store in Ho as ->. done.
Qed.

(** X4.  A transfer of a live token by its witness-authorized owner [o] to
    another 20-byte address [to], other than the executing contract (whose
    own [onNEP11Payment] aborts), returns true; afterwards the TokenOwner
    entry holds [to], the index entry of [o] is gone and the one of [to]
    holds the token, the balance of [o] is one less and that of [to] one
    more, the supply, the metadata and the locked content are untouched,
    and one Transfer from [o] to [to] is notified, followed by the receiver
    hook exactly when [to] holds a contract. *)
Theorem transfer_moves_token env w t o to data :
  store w !! mk_token_key t = Some o ->
  length o = 20%nat -> length to = 20%nat ->
  witness env o = true -> o <> to ->
  to <> executing_script_hash env ->
  1 <= balance (store w) o -> 0 <= balance (store w) to ->
  exists w', transfer to t data env w = Ok true w'
    /\ store w' !! mk_token_key t = Some to
    /\ store w' !! (mk_account_prefix o ++ t) = None
    /\ store w' !! (mk_account_prefix to ++ t) = Some t
    /\ balance (store w') o = balance (store w) o - 1
    /\ balance (store w') to = balance (store w) to + 1
    /\ supply (store w') = supply (store w)
    /\ store w' !! mk_meta_key t = store w !! mk_meta_key t
    /\ store w' !! mk_locked_key t = store w !! mk_locked_key t
    /\ events w' = events w ++ on_transfer (Some o) (Some to) 1 t
         :: (if is_contract env to
             then [call_onNEP11Payment to (Some o) 1 t data] else []).
Proof.
  intros Ho Hlo Hlto Hw Hne _ Hbo Hbto.
  destruct (transfer_run_other env w t o to data Ho Hlo Hlto Hw Hne)
    as (w' & E & Hs & Hev).
  exists w'. split; [done|]. rewrite Hs. unfold transfer_store.
  assert (Hk : mk_account_prefix to ++ t <> mk_account_prefix o ++ t).
  { unfold_keys. intros [= E']. apply app_inv_tail in E'. congruence. }
  assert (B1 : balance (delete (mk_account_prefix o ++ t)
                          (bal_add o (-1) (store w))) to = balance (store w) to).
  { unfold balance. rewrite read_delete_ne by keys.
    fold (balance (bal_add o (-1) (store w)) to).
    by apply balance_bal_add_other. }
  repeat split.
  - apply lookup_insert_eq.
  - rewrite lookup_insert_ne by keys. rewrite lookup_insert_ne by done.
    rewrite lookup_bal_add by keys. apply lookup_delete_eq.
  - rewrite lookup_insert_ne by keys. apply lookup_insert_eq.
  - unfold balance at 1. rewrite !read_insert_ne by keys.
    fold (balance (bal_add to 1 (delete (mk_account_prefix o ++ t)
                                   (bal_add o (-1) (store w)))) o).
    rewrite balance_bal_add_other by done.
    unfold balance at 1. rewrite read_delete_ne by keys.
    fold (balance (bal_add o (-1) (store w)) o).
    rewrite balance_bal_add_same; lia.
  - unfold balance at 1. rewrite !read_insert_ne by keys.
    fold (balance (bal_add to 1 (delete (mk_account_prefix o ++ t)
                                   (bal_add o (-1) (store w)))) to).
    rewrite balance_bal_add_same; rewrite B1; lia.
  - unfold supply, read. rewrite !lookup_insert_ne by keys.
    rewrite lookup_bal_add by keys. rewrite lookup_delete_ne by keys.
    by rewrite lookup_bal_add by keys.
  - rewrite !lookup_insert_ne by keys. rewrite lookup_bal_add by keys.
    rewrite lookup_delete_ne by keys. by rewrite lookup_bal_add by keys.
  - rewrite !lookup_insert_ne by keys. rewrite lookup_bal_add by keys.
    rewrite lookup_delete_ne by keys. by rewrite lookup_bal_add by keys.
  - exact Hev.
Qed.

(** X5.  Whatever its arguments and its outcome, [transfer] leaves the
    supply, the mint fee, the deployed flag and every metadata, locked
    content and view counter entry as it found them. *)
Theorem transfer_frame to t data env w :
  let s' := store (world_of (transfer to t data env w)) in
  supply s' = supply (store w)
  /\ mint_fee s' = mint_fee (store w)
  /\ s' !! DEPLOYED = store w !! DEPLOYED
  /\ forall t', s' !! mk_meta_key t' = store w !! mk_meta_key t'
       /\ s' !! mk_locked_key t' = store w !! mk_locked_key t'
       /\ view_count s' t' = view_count (store w) t'.
Proof.
  assert (K : forall k, (forall a, mk_balance_key a <> k) ->
                        (forall a x, mk_account_prefix a ++ x <> k) ->
                        (forall x, mk_token_key x <> k) ->
                        keeps k (transfer to t data)).
  { intros k Hb Ha Ht. unfold transfer.
    unfold symbol, totalSupply, balanceOf, tokensOf, add_token, remove_token,
      set_owner_of, get_owner_of, UInt160, add_to_balance, post_transfer,
      check_witness.
    repeat first
      [ apply keeps_ret | apply keeps_fail | apply keeps_assert
      | apply keeps_ask | apply keeps_notify | apply keeps_get
      | apply keeps_put; first [apply Hb | apply Ha | apply Ht]
      | apply keeps_delete; first [apply Hb | apply Ha | apply Ht]
      | apply keeps_bind; [|intros ?]
      | match goal with
        | |- keeps _ (if ?c then _ else _) => destruct c
        | |- keeps _ (match ?x with _ => _ end) => destruct x
        end ]. }
  cbn zeta. repeat split.
  - unfold supply, read. rewrite (K SUPPLY_PREFIX); [done | | |]; intros; keys.
  - unfold mint_fee, read. rewrite (K MINT_FEE); [done | | |]; intros; keys.
  - apply (K DEPLOYED); intros; keys.
  - apply (K (mk_meta_key t')); intros; keys.
  - apply (K (mk_locked_key t')); intros; keys.
  - unfold view_count, read. rewrite (K (mk_lv_key t')); [done | | |]; intros; keys.
Qed.

(** X6.  For a 20-byte owner [add_to_balance] never stores a balance that
    is not positive: the new balance reads as the old one plus the amount
    when that is positive and as 0 otherwise, in which case the entry is
    deleted; no other key changes. *)
Theorem add_to_balance_clamps a d env w :
  length a = 20%nat ->
  exists w', add_to_balance a d env w = Ok tt w'
    /\ balance (store w') a = Z.max 0 (balance (store w) a + d)
    /\ (store w' !! mk_balance_key a = None <-> balance (store w) a + d <= 0)
    /\ (forall k, k <> mk_balance_key a -> store w' !! k = store w !! k)
    /\ events w' = events w.
Proof.
  intros Hl. eexists. split; [by apply add_to_balance_run|]. cbn [store events].
  unfold bal_add. destruct (Z.gtb_spec (balance (store w) a + d) 0) as [Hp|Hn].
  - repeat split.
    + unfold balance at 1. rewrite read_insert_eq, to_int_int_to_bytes. lia.
    + by rewrite lookup_insert_eq.
    + lia.
    + intros k Hk. by rewrite lookup_insert_ne.
  - repeat split.
    + unfold balance at 1. rewrite read_delete_eq, to_int_nil. lia.
    + done.
    + intros _. apply lookup_delete_eq.
    + intros k Hk. by rewrite lookup_delete_ne.
Qed.

End Ledger.

Section Administration.
Context `{Host}.

Lemma setMintFee_run fee env w :
  witness env OWNER = true ->
  exists w', setMintFee fee env w = Ok fee w'
    /\ store w' = <[MINT_FEE := int_to_bytes fee]> (store w)
    /\ events w' = events w.
Proof.
  intros Hw. unfold setMintFee. unfold_prims. rewrite Hw. step.
  rewrite lookup_insert_eq. step. cbn [from_option id]. rewrite to_int_int_to_bytes.
  eexists. split; [reflexivity|]. done.
Qed.

(** X7.  With the owner's witness [setMintFee] stores the fee, whatever
    its sign, and returns it; [getMintFee] then returns that fee, and no
    other key has changed. *)
Theorem setMintFee_getMintFee fee env w :
  witness env OWNER = true ->
  exists w', setMintFee fee env w = Ok fee w'
    /\ (forall env', value_of (getMintFee env' w') = Some fee)
    /\ (forall k, k <> MINT_FEE -> store w' !! k = store w !! k).
Proof.
  intros Hw. destruct (setMintFee_run fee env w Hw) as (w' & E & Hs & _).
  exists w'. split; [done|]. split.
  - intros env'. unfold getMintFee. unfold_prims. cbn. rewrite Hs.
    fold (read (<[MINT_FEE:=int_to_bytes fee]> (store w)) MINT_FEE).
    by rewrite read_insert_eq, to_int_int_to_bytes.
  - intros k Hk. rewrite Hs. by rewrite lookup_insert_ne.
Qed.

(** X8.  Once the owner has set a negative fee, every [mint] fails with
    the exception on the fee, whoever calls it and whatever the
    fee-token transfer would answer, and stores nothing. *)
Theorem negative_fee_blocks_mint fee env w w' :
  fee < 0 ->
  setMintFee fee env w = Ok fee w' ->
  forall account meta content data env', exists w'',
    mint account meta content data env' w'
    = Fault (Exception "Mint fee can't be < 0") w''
    /\ store w'' = store w'.
Proof.
  intros Hneg Hrun account meta content data env'.
  assert (Hfee : mint_fee (store w') = fee).
  { destruct (witness env OWNER) eqn:Hw.
    - destruct (setMintFee_run fee env w Hw) as (w2 & E & Hs & _).
      rewrite E in Hrun. injection Hrun as <-. rewrite Hs.
      unfold mint_fee. by rewrite read_insert_eq, to_int_int_to_bytes.
    - revert Hrun. unfold setMintFee. unfold_prims. by rewrite Hw. }
  unfold mint. unfold_prims. fold (read (store w') MINT_FEE).
  fold (mint_fee (store w')). rewrite Hfee.
  rewrite (proj2 (Z.ltb_lt _ _) Hneg).
  eexists. split; [reflexivity|]. done.
Qed.

(** X9.  The administrative operations look at the owner's witness alone:
    without it [setMintFee] and [withdrawFee] fail on their assertion and
    [set_authorized_address] returns false, in every state -- whatever
    the stored list of authorized addresses -- and the world is left as it
    was: nothing is read, stored or notified. *)
Theorem administration_needs_owner env w :
  witness env OWNER = false ->
  (forall fee, setMintFee fee env w = Fault AssertionError w)
  /\ (forall account, withdrawFee account env w = Fault AssertionError w)
  /\ (forall a b, set_authorized_address a b env w = Ok false w).
Proof.
  intros Hw. repeat split; intros.
  - unfold setMintFee. unfold_prims. by rewrite Hw.
  - unfold withdrawFee. unfold_prims. by rewrite Hw.
  - unfold set_authorized_address. unfold_prims. by rewrite Hw.
Qed.

(** X10.  With the owner's witness [withdrawFee] asks the fee token to
    move the whole balance of the contract to the account and returns the
    answer of that transfer; the store of the contract is not read or
    written. *)
Theorem withdrawFee_moves_whole_balance account env w :
  witness env OWNER = true ->
  exists w', withdrawFee account env w
             = Ok (gas_transfer env (executing_script_hash env) account
                     (gas_balance env (executing_script_hash env))) w'
    /\ store w' = store w
    /\ accesses w' = accesses w
    /\ events w' = events w ++
         [call_GAS_transfer (executing_script_hash env) account
            (gas_balance env (executing_script_hash env))].
Proof.
  intros Hw. unfold withdrawFee. unfold_prims. rewrite Hw. step.
  eexists. split; [reflexivity|]. done.
Qed.

Lemma list_remove_app_new (l : list bytes) a :
  a ∉ l -> list_remove a (l ++ [a]) = Some l.
Proof.
  induction l as [|x l IH]; intros Hnot; cbn [app list_remove].
  - by rewrite bool_decide_true.
  - apply not_elem_of_cons in Hnot as [Hne Hnot].
    rewrite bool_decide_false by congruence. by rewrite IH.
Qed.

Lemma list_remove_absent (l : list bytes) a : a ∉ l -> list_remove a l = None.
Proof.
  induction l as [|x l IH]; intros Hnot; cbn [list_remove]; [done|].
  apply not_elem_of_cons in Hnot as [Hne Hnot].
  rewrite bool_decide_false by congruence. by rewrite IH.
Qed.

Lemma set_authorized_address_remove_run env w a l l' :
  witness env OWNER = true ->
  deserialize (read (store w) AUTH_ADDRESSES) = Some (AList l) ->
  list_remove a l = Some l' ->
  exists w', set_authorized_address a false env w = Ok true w'
    /\ store w' = <[AUTH_ADDRESSES := serialize (AList l')]> (store w)
    /\ events w' = events w ++ [on_auth a false].
Proof.
  intros Hw Hl Hr. unfold set_authorized_address. unfold_prims.
  rewrite Hw. step. fold (read (store w) AUTH_ADDRESSES). rewrite Hl. step.
  rewrite Hr. step. eexists. split; [reflexivity|]. done.
Qed.

(** X11.  With the owner's witness, adding an address that is not in the
    stored list appends it at the end, and removing it again gives back
    the store as it was before the add. *)
Theorem authorized_add_then_remove env1 env2 w a l :
  witness env1 OWNER = true ->
  witness env2 OWNER = true ->
  store w !! AUTH_ADDRESSES = Some (serialize (AList l)) ->
  a ∉ l ->
  exists w1 w2,
    set_authorized_address a true env1 w = Ok true w1
    /\ deserialize (read (store w1) AUTH_ADDRESSES) = Some (AList (l ++ [a]))
    /\ set_authorized_address a false env2 w1 = Ok true w2
    /\ store w2 = store w.
Proof.
  intros Hw1 Hw2 Hst Hnot.
  assert (Hl : deserialize (read (store w) AUTH_ADDRESSES) = Some (AList l)).
  { unfold read. rewrite Hst. apply deserialize_serialize. }
  destruct (set_authorized_address_add_run env1 w a l Hw1 Hl) as (w1 & E1 & Hs1 & _).
  rewrite bool_decide_false in Hs1 by done.
  assert (Hl1 : deserialize (read (store w1) AUTH_ADDRESSES)
                = Some (AList (l ++ [a])))
    by (by rewrite Hs1, read_insert_eq, deserialize_serialize).
  destruct (set_authorized_address_remove_run env2 w1 a _ l Hw2 Hl1
              (list_remove_app_new l a Hnot)) as (w2 & E2 & Hs2 & _).
  exists w1, w2. split; [done|]. split; [done|]. split; [done|].
  rewrite Hs2, Hs1, insert_insert_eq. by apply insert_id.
Qed.

(** X12.  With the owner's witness, removing an address that is not in
    the stored list fails ([list.remove] finds nothing to remove) and
    stores nothing. *)
Theorem authorized_remove_absent_fails env w a l :
  witness env OWNER = true ->
  deserialize (read (store w) AUTH_ADDRESSES) = Some (AList l) ->
  a ∉ l ->
  exists w', set_authorized_address a false env w = Fault ValueError w'
    /\ store w' = store w /\ events w' = events w.
Proof.
  intros Hw Hl Hnot. unfold set_authorized_address. unfold_prims.
  rewrite Hw. step. fold (read (store w) AUTH_ADDRESSES). rewrite Hl. step.
  rewrite (list_remove_absent l a Hnot). eexists. split; [reflexivity|]. done.
Qed.

(** X13.  [mint] does not check the length of the account before it
    charges the fee: for an account that is not 20 bytes long, with a fee
    that is not negative and a fee transfer that succeeds, the transfer
    is requested and the call then fails on the length assertion of
    [balanceOf], never returning a token. *)
Theorem mint_bad_account_fails_after_fee env w account meta content data :
  length account <> 20%nat ->
  0 <= mint_fee (store w) ->
  gas_transfer env account (executing_script_hash env) (mint_fee (store w)) = true ->
  exists w', mint account meta content data env w = Fault AssertionError w'
    /\ call_GAS_transfer account (executing_script_hash env)
         (mint_fee (store w)) ∈ events w'.
Proof.
  intros Hl Hfee Hpaid. unfold mint_fee in *. unfold mint. unfold_prims.
  fold (read (store w) MINT_FEE).
  rewrite (proj2 (Z.ltb_ge _ _) Hfee). step. rewrite Hpaid. step.
  unfold internal_mint. unfold_prims.
  rewrite add_to_balance_fault by done.
  eexists. split; [reflexivity|]. cbn [events].
  rewrite !elem_of_app, !list_elem_of_singleton. auto 10.
Qed.

End Administration.

Section Batches.
Context `{Host}.

Lemma burn_refused env w t o :
  store w !! mk_token_key t = Some o ->
  length o = 20%nat ->
  witness env o = false ->
  exists w', burn t env w = Ok false w'
    /\ store w' = store w /\ events w' = events w.
Proof.
  intros Ho Hlo Hw. unfold burn, internal_burn. unfold_prims.
  rewrite (get_owner_of_run _ _ _ _ Ho Hlo). step. rewrite Hw.
  eexists. split; [reflexivity|]. done.
Qed.

(** X14.  [multiBurn] goes on after a refusal: when every token of the
    list has a 20-byte owner that is not witness-authorized, it returns
    false for each of them, stores nothing and notifies nothing. *)
Theorem multiBurn_unauthorized ts env w :
  Forall (fun t => exists o, store w !! mk_token_key t = Some o
                     /\ length o = 20%nat /\ witness env o = false) ts ->
  exists w', multiBurn ts env w = Ok (map (fun _ => false) ts) w'
    /\ store w' = store w /\ events w' = events w.
Proof.
  revert w. induction ts as [|t ts IH]; intros w Hall.
  - exists w. done.
  - apply Forall_cons in Hall as [(o & Ho & Hlo & Hw) Hall].
    destruct (burn_refused env w t o Ho Hlo Hw)
      as (w1 & E1 & Hs1 & Hev1).
    assert (Hall1 : Forall (fun t => exists o, store w1 !! mk_token_key t = Some o
                     /\ length o = 20%nat /\ witness env o = false) ts)
      by (by rewrite Hs1).
    destruct (IH w1 Hall1) as (w2 & E2 & Hs2 & Hev2).
    exists w2. split; [|by rewrite Hs2, Hev2].
    cbn [multiBurn map]. unfold bind. by rewrite E1, E2.
Qed.

Lemma nft_data_mint_store (env : Env) (account meta content z : bytes)
    (s : gmap bytes bytes) (data : option Any) :
  nft_data env (mint_store account meta content (TOKEN_SYMBOL_B ++ z) s) data
  = nft_data env s data + 1.
Proof.
  unfold nft_data. rewrite token_count_mint_store. destruct data; lia.
Qed.

(** X15.  A successful [multiMint] returns one identifier per metadata
    item: the token symbol followed by the bytes of consecutive integers,
    starting at the sum the first mint derives; so the identifiers of one
    batch are pairwise distinct.  It advances the token counter by the
    number of items, and it cannot succeed when [lockedContent] is shorter
    than [meta]. *)
Theorem multiMint_ids account metas contents data env w ids w' :
  multiMint account metas contents data env w = Ok ids w' ->
  ids = map (fun i => TOKEN_SYMBOL_B
                        ++ int_to_bytes (nft_data env (store w) data + Z.of_nat i))
            (seq 0 (length metas))
  /\ NoDup ids
  /\ (length metas <= length contents)%nat
  /\ token_count (store w') = token_count (store w) + Z.of_nat (length metas).
Proof.
  intros Hrun.
  assert (G : ids = map (fun i => TOKEN_SYMBOL_B
                        ++ int_to_bytes (nft_data env (store w) data + Z.of_nat i))
                        (seq 0 (length metas))
              /\ (length metas <= length contents)%nat
              /\ token_count (store w') = token_count (store w)
                                          + Z.of_nat (length metas)).
  { revert contents w ids w' Hrun.
    induction metas as [|m metas IH]; intros contents w ids w' Hrun.
    - cbn in Hrun. injection Hrun as <- <-. cbn. split; [done|]. split; lia.
    - cbn [multiMint] in Hrun. destruct contents as [|c contents]; [done|].
      unfold bind in Hrun.
      destruct (mint account m c data env w) as [t w1|] eqn:E1; [|done].
      destruct (multiMint account metas contents data env w1) as [ts w2|] eqn:E2;
        [|done].
      cbn in Hrun. injection Hrun as <- <-.
      apply mint_inv in E1 as (_ & _ & _ & Ht & Hs1).
      destruct (IH _ _ _ _ E2) as (Hts & Hlen & Hc).
      assert (Hn : nft_data env (store w1) data = nft_data env (store w) data + 1).
      { rewrite Hs1, Ht. unfold new_token_id. apply nft_data_mint_store. }
      split; [|split].
      + cbn [length seq map]. f_equal.
        * rewrite Ht. unfold new_token_id. by rewrite Z.add_0_r.
        * rewrite Hts. rewrite <- seq_shift, map_map. apply map_ext.
          intros i. rewrite Hn. do 2 f_equal. lia.
      + cbn [length]. lia.
      + rewrite Hc, Hs1, Ht. unfold new_token_id.
        rewrite token_count_mint_store. cbn [length]. lia. }
  destruct G as (Hids & Hlen & Hc). split; [done|]. split; [|done].
  rewrite Hids. apply NoDup_fmap_2; [|apply NoDup_seq].
  intros i j E. apply app_inv_head in E. apply int_to_bytes_inj in E. lia.
Qed.

(** The notifications of a successful mint. *)
Lemma mint_run_events env w account meta content data :
  0 <= to_int (read (store w) MINT_FEE) ->
  gas_transfer env account (executing_script_hash env)
    (to_int (read (store w) MINT_FEE)) = true ->
  length account = 20%nat ->
  exists w',
    mint account meta content data env w
      = Ok (new_token_id env (store w) data) w'
    /\ store w' = mint_store account meta content
                    (new_token_id env (store w) data) (store w)
    /\ events w' = events w ++
         [ call_GAS_transfer account (executing_script_hash env)
             (to_int (read (store w) MINT_FEE));
           debug [list_byte_of_string "locked: "; content];
           debug [list_byte_of_string "locked2: "; content;
                  mk_locked_key (new_token_id env (store w) data)];
           on_transfer None (Some account) 1 (new_token_id env (store w) data) ]
         ++ hook_events env None (Some account)
              (new_token_id env (store w) data) None.
Proof.
  intros Hfee Hpaid Hl. unfold mint. unfold_prims. fold (read (store w) MINT_FEE).
  rewrite (proj2 (Z.ltb_ge _ _) Hfee). step. rewrite Hpaid. step.
  match goal with |- context [internal_mint _ _ _ _ env ?w0] =>
    destruct (internal_mint_run env w0 account meta content data Hl)
      as (w' & E & Hs & Hev) end.
  cbn [store events] in *. rewrite E. exists w'.
  split; [done|]. split; [done|]. rewrite Hev. by rewrite <- !app_assoc.
Qed.

(** X16.  A successful [mint] for a 20-byte account other than the
    executing contract (whose own [onNEP11Payment] aborts), with the
    integers of the call within those of the host, writes the whole record
    of the new token: the TokenOwner entry holds the account, the index
    entry of the account holds the identifier, the metadata entry holds
    the serialized metadata and the locked content entry the payload; the
    balance of the account and the supply are one more; the view counter
    of the identifier is not reset.  It notifies the fee transfer, two
    debug events and the Transfer to the account, followed by the receiver
    hook of the account exactly when the account holds a contract. *)
Theorem mint_writes_entries env w account meta content data :
  0 <= mint_fee (store w) ->
  gas_transfer env account (executing_script_hash env) (mint_fee (store w)) = true ->
  length account = 20%nat ->
  account <> executing_script_hash env ->
  mint_in_range env (store w) account data ->
  0 <= balance (store w) account ->
  exists w',
    mint account meta content data env w = Ok (new_token_id env (store w) data) w'
    /\ store w' !! mk_token_key (new_token_id env (store w) data) = Some account
    /\ store w' !! (mk_account_prefix account ++ new_token_id env (store w) data)
       = Some (new_token_id env (store w) data)
    /\ store w' !! mk_meta_key (new_token_id env (store w) data)
       = Some (json_serialize meta)
    /\ store w' !! mk_locked_key (new_token_id env (store w) data) = Some content
    /\ balance (store w') account = balance (store w) account + 1
    /\ supply (store w') = supply (store w) + 1
    /\ view_count (store w') (new_token_id env (store w) data)
       = view_count (store w) (new_token_id env (store w) data)
    /\ events w' = events w ++
         [ call_GAS_transfer account (executing_script_hash env)
             (mint_fee (store w));
           debug [list_byte_of_string "locked: "; content];
           debug [list_byte_of_string "locked2: "; content;
                  mk_locked_key (new_token_id env (store w) data)];
           on_transfer None (Some account) 1 (new_token_id env (store w) data) ]
         ++ (if is_contract env account
             then [call_onNEP11Payment account None 1
                     (new_token_id env (store w) data) None]
             else []).
Proof.
  intros Hfee Hpaid Hl _ _ Hb. unfold mint_fee in *.
  destruct (mint_run_events env w account meta content data Hfee Hpaid Hl)
    as (w' & E & Hs & Hev).
  exists w'. split; [done|]. rewrite Hs, Hev. unfold new_token_id.
  set (id := TOKEN_SYMBOL_B ++ int_to_bytes (nft_data env (store w) data)).
  unfold mint_store. repeat split.
  - rewrite lookup_sup_add by keys. rewrite lookup_bal_add by keys.
    apply lookup_insert_eq.
  - rewrite lookup_sup_add by keys. rewrite lookup_bal_add by keys.
    rewrite !lookup_insert_ne by keys. apply lookup_insert_eq.
  - rewrite lookup_sup_add by keys. rewrite lookup_bal_add by keys.
    rewrite lookup_insert_ne by keys. apply lookup_insert_eq.
  - rewrite lookup_sup_add by keys. rewrite lookup_bal_add by keys.
    rewrite !lookup_insert_ne by keys. apply lookup_insert_eq.
  - rewrite balance_sup_add.
    match goal with |- balance (bal_add _ _ ?s) _ = _ =>
      assert (B : balance s account = balance (store w) account)
        by (unfold balance; by rewrite !read_insert_ne by keys) end.
    rewrite balance_bal_add_same; rewrite B; lia.
  - rewrite supply_sup_add. f_equal. unfold supply, read.
    rewrite lookup_bal_add by keys. by rewrite !lookup_insert_ne by keys.
  - unfold view_count, read. rewrite lookup_sup_add by keys.
    rewrite lookup_bal_add by keys. by rewrite !lookup_insert_ne by (subst id; keys).
Qed.

End Batches.

Section ViewCounter.
Context `{Host}.
Variable t : bytes.

Lemma keeps_view_mint account meta content data :
  keeps (mk_lv_key t) (mint account meta content data).
Proof. unfold mint, internal_mint. keeps_auto. Qed.

Lemma keeps_view_burn t' : keeps (mk_lv_key t) (burn t').
Proof. unfold burn, internal_burn. keeps_auto. Qed.

Lemma keeps_view_multiBurn ts : keeps (mk_lv_key t) (multiBurn ts).
Proof.
  induction ts as [|t' ts IH]; cbn [multiBurn]; [apply keeps_ret|].
  apply keeps_bind; [apply keeps_view_burn|]. intros b.
  apply keeps_bind; [apply IH|]. intros bs. apply keeps_ret.
Qed.

Lemma keeps_view_multiMint account metas contents data :
  keeps (mk_lv_key t) (multiMint account metas contents data).
Proof.
  revert contents. induction metas as [|m metas IH]; intros contents;
    cbn [multiMint]; [apply keeps_ret|].
  destruct contents as [|c contents]; [apply keeps_fail|].
  apply keeps_bind; [apply keeps_view_mint|]. intros x.
  apply keeps_bind; [apply IH|]. intros xs. apply keeps_ret.
Qed.

(** X17.  The view counter of a token is written by [getLockedContent] of
    that token and by nothing else: whatever their arguments and their
    outcome, transfer, burn, multiBurn, mint, multiMint, the administrative
    operations and [getLockedContent] of any other token leave it as it
    is.  In particular it survives the burn of the token and is not reset
    when the identifier is minted again. *)
Theorem view_counter_frame :
  (forall to t' data, keeps (mk_lv_key t) (transfer to t' data))
  /\ (forall t', keeps (mk_lv_key t) (burn t'))
  /\ (forall ts, keeps (mk_lv_key t) (multiBurn ts))
  /\ (forall account meta content data,
        keeps (mk_lv_key t) (mint account meta content data))
  /\ (forall account metas contents data,
        keeps (mk_lv_key t) (multiMint account metas contents data))
  /\ (forall a b, keeps (mk_lv_key t) (set_authorized_address a b))
  /\ (forall fee, keeps (mk_lv_key t) (setMintFee fee))
  /\ keeps (mk_lv_key t) deploy
  /\ (forall t', t' <> t -> keeps (mk_lv_key t) (getLockedContent t')).
Proof.
  split; [intros; unfold transfer; keeps_auto|].
  split; [apply keeps_view_burn|].
  split; [apply keeps_view_multiBurn|].
  split; [apply keeps_view_mint|].
  split; [apply keeps_view_multiMint|].
  split; [intros; unfold set_authorized_address; keeps_auto|].
  split; [intros; unfold setMintFee; keeps_auto|].
  split; [unfold deploy; keeps_auto|].
  intros t' Hne. unfold getLockedContent. keeps_auto.
Qed.

End ViewCounter.

Section Enumeration.
Context `{Host}.

Lemma token_prefix_cases (k : bytes) :
  TOKEN_PREFIX `prefix_of` k <-> is_token_key k \/ k = TOKEN_COUNT.
Proof.
  unfold is_token_key. split.
  - intros Hp. destruct (decide (k = TOKEN_COUNT)); [by right | by left].
  - intros [[Hp _] | ->]; [done|]. by exists ["C"%byte].
Qed.

(** X18.  [tokens] scans the prefix of the TokenOwner entries, which is
    also a prefix of the key of the token counter: it returns every
    TokenOwner entry and, once the counter has been written, the counter
    entry as well, and nothing else.  It stores nothing. *)
Theorem tokens_lists_counter env w :
  exists l w', tokens env w = Ok l w'
    /\ store w' = store w
    /\ forall k v, (k, v) ∈ l
         <-> store w !! k = Some v /\ (is_token_key k \/ k = TOKEN_COUNT).
Proof.
  eexists _, _. split; [reflexivity|]. split; [done|]. intros k v.
  rewrite elem_of_map_to_list, map_lookup_filter_Some. cbn [fst].
  by rewrite token_prefix_cases.
Qed.

(** X19.  The keys the contract builds for a minted token and a 20-byte
    address, and its fixed keys, are pairwise distinct: an entry of one
    kind is never read or overwritten as an entry of another kind. *)
Theorem minted_keys_apart (z a : bytes) :
  length a = 20%nat ->
  NoDup [ mk_token_key (TOKEN_SYMBOL_B ++ z);
          mk_meta_key (TOKEN_SYMBOL_B ++ z);
          mk_locked_key (TOKEN_SYMBOL_B ++ z);
          mk_lv_key (TOKEN_SYMBOL_B ++ z);
          mk_balance_key a;
          mk_account_prefix a ++ TOKEN_SYMBOL_B ++ z;
          TOKEN_COUNT; MINT_FEE; AUTH_ADDRESSES; DEPLOYED; PAUSED;
          SUPPLY_PREFIX ].
Proof.
  intros Hl.
  assert (Ha : mk_account_prefix a ++ TOKEN_SYMBOL_B ++ z <> AUTH_ADDRESSES).
  { unfold_keys. intros [= E]. apply (f_equal length) in E.
    rewrite length_app in E. cbn in E. lia. }
  repeat (apply NoDup_cons; split;
          [ rewrite ?not_elem_of_cons; repeat split;
            first [ apply not_elem_of_nil | exact Ha | keys ] | ]).
  apply NoDup_nil_2.
Qed.

End Enumeration.

(** ** The index of tokens per owner *)

Section Index.
Context `{Host}.
Implicit Types (s : gmap bytes bytes) (t o a to : bytes).

Lemma index_key_inj a1 t1 a2 t2 :
  length a1 = 20%nat -> length a2 = 20%nat ->
  mk_account_prefix a1 ++ t1 = mk_account_prefix a2 ++ t2 ->
  a1 = a2 /\ t1 = t2.
Proof.
  intros H1 H2. unfold_keys. intros [= E]. apply app_inj_1 in E; [done|].
  by rewrite H1, H2.
Qed.

Lemma index_key_not_fixed a t k :
  length a = 20%nat ->
  k ∈ [TOKEN_COUNT; MINT_FEE; AUTH_ADDRESSES; DEPLOYED; SUPPLY_PREFIX] ->
  k <> mk_account_prefix a ++ t.
Proof.
  intros Hl Hk E. subst k.
  rewrite !elem_of_cons in Hk. rewrite elem_of_nil in Hk.
  destruct Hk as [E|[E|[E|[E|[E|[]]]]]]; unfold_keys; try congruence.
  injection E as E. apply (f_equal length) in E.
  rewrite length_app in E. cbn in E. lia.
Qed.

Lemma token_key_inj t1 t2 : mk_token_key t1 = mk_token_key t2 -> t1 = t2.
Proof. unfold_keys. congruence. Qed.

Lemma index_inv_empty : index_inv ∅.
Proof. split; intros *; by rewrite lookup_empty. Qed.

(** Writes outside the index and the TokenOwner entries keep it. *)
Lemma index_inv_insert_other s k v :
  (forall a t, length a = 20%nat -> k <> mk_account_prefix a ++ t) ->
  ~ is_token_key k ->
  index_inv s -> index_inv (<[k:=v]> s).
Proof.
  intros Hi Hk [Hs Hc]. split.
  - intros a t x Hl. rewrite lookup_insert_ne by (by apply Hi).
    intros Hx. destruct (Hs a t x Hl Hx) as (-> & Ht & Ho).
    split; [done|]. split; [done|].
    rewrite lookup_insert_ne; [done|]. by intros ->.
  - intros t a Ht. rewrite lookup_insert_ne by (by intros ->).
    intros Ho. destruct (Hc t a Ht Ho) as [Hl Hx]. split; [done|].
    by rewrite lookup_insert_ne by (by apply Hi).
Qed.

Lemma index_inv_delete_other s k :
  (forall a t, length a = 20%nat -> k <> mk_account_prefix a ++ t) ->
  ~ is_token_key k ->
  index_inv s -> index_inv (delete k s).
Proof.
  intros Hi Hk [Hs Hc]. split.
  - intros a t x Hl. rewrite lookup_delete_ne by (by apply Hi).
    intros Hx. destruct (Hs a t x Hl Hx) as (-> & Ht & Ho).
    split; [done|]. split; [done|].
    rewrite lookup_delete_ne; [done|]. by intros ->.
  - intros t a Ht. rewrite lookup_delete_ne by (by intros ->).
    intros Ho. destruct (Hc t a Ht Ho) as [Hl Hx]. split; [done|].
    by rewrite lookup_delete_ne by (by apply Hi).
Qed.

Lemma index_inv_bal_add s a d : index_inv s -> index_inv (bal_add a d s).
Proof.
  intros Hinv. unfold bal_add. destruct (_ >? 0).
  - apply index_inv_insert_other; [intros; keys | auto with keys | done].
  - apply index_inv_delete_other; [intros; keys | auto with keys | done].
Qed.

Lemma index_inv_sup_add s d : index_inv s -> index_inv (sup_add d s).
Proof.
  intros Hinv. apply index_inv_insert_other;
    [intros; keys | auto with keys | done].
Qed.

(** Linking a token to an owner: the index entry and the TokenOwner entry
    written together. *)
Lemma index_inv_link s a t :
  length a = 20%nat -> is_token_key (mk_token_key t) ->
  s !! mk_token_key t = None ->
  index_inv s ->
  index_inv (<[mk_token_key t := a]> (<[mk_account_prefix a ++ t := t]> s)).
Proof.
  intros Hl Ht Hnew [Hs Hc]. split.
  - intros a' t' x Hl'. rewrite lookup_insert_ne by keys.
    destruct (decide (mk_account_prefix a ++ t = mk_account_prefix a' ++ t'))
      as [E|Hne].
    + apply index_key_inj in E as [<- <-]; [|done..].
      rewrite lookup_insert_eq. intros [= <-].
      split; [done|]. split; [done|]. apply lookup_insert_eq.
    + rewrite lookup_insert_ne by done. intros Hx.
      destruct (Hs a' t' x Hl' Hx) as (-> & Ht' & Ho).
      split; [done|]. split; [done|].
      rewrite lookup_insert_ne by (intros E; apply token_key_inj in E; congruence).
      by rewrite lookup_insert_ne by keys.
  - intros t' a' Ht'.
    destruct (decide (t = t')) as [<-|Hne].
    + rewrite lookup_insert_eq. intros [= <-]. split; [done|].
      rewrite lookup_insert_ne by keys. apply lookup_insert_eq.
    + rewrite lookup_insert_ne by (intros E; by apply token_key_inj in E).
      rewrite lookup_insert_ne by keys. intros Ho.
      destruct (Hc t' a' Ht' Ho) as [Hl' Hx]. split; [done|].
      rewrite lookup_insert_ne by keys.
      rewrite lookup_insert_ne; [done|].
      intros E. apply index_key_inj in E as [_ ?]; done.
Qed.

(** Unlinking a live token: both entries deleted. *)
Lemma index_inv_unlink s o t :
  is_token_key (mk_token_key t) -> s !! mk_token_key t = Some o ->
  index_inv s ->
  index_inv (delete (mk_token_key t) (delete (mk_account_prefix o ++ t) s)).
Proof.
  intros Ht Ho [Hs Hc]. destruct (Hc t o Ht Ho) as [Hlo _]. split.
  - intros a' t' x Hl'. rewrite lookup_delete_ne by keys.
    destruct (decide (mk_account_prefix o ++ t = mk_account_prefix a' ++ t'))
      as [E|Hne].
    + rewrite E. by rewrite lookup_delete_eq.
    + rewrite lookup_delete_ne by done. intros Hx.
      destruct (Hs a' t' x Hl' Hx) as (-> & Ht' & Ho').
      split; [done|]. split; [done|].
      destruct (decide (t = t')) as [<-|Hne'].
      { exfalso. apply Hne. congruence. }
      rewrite lookup_delete_ne by (intros E; by apply token_key_inj in E).
      by rewrite lookup_delete_ne by keys.
  - intros t' a' Ht'.
    destruct (decide (t = t')) as [<-|Hne]; [by rewrite lookup_delete_eq|].
    rewrite lookup_delete_ne by (intros E; by apply token_key_inj in E).
    rewrite lookup_delete_ne by keys. intros Ho'.
    destruct (Hc t' a' Ht' Ho') as [Hl' Hx]. split; [done|].
    rewrite lookup_delete_ne by keys.
    rewrite lookup_delete_ne; [done|].
    intros E. apply index_key_inj in E as [_ ?]; done.
Qed.

Lemma delete_commute_token_index s o t k :
  delete (mk_token_key t) (delete k (delete (mk_account_prefix o ++ t) s))
  = delete k (delete (mk_token_key t) (delete (mk_account_prefix o ++ t) s)).
Proof. apply delete_delete. Qed.

Lemma index_inv_burn s t o :
  is_token_key (mk_token_key t) -> s !! mk_token_key t = Some o ->
  index_inv s -> index_inv (burn_store o t s).
Proof.
  intros Ht Ho Hinv. unfold burn_store.
  apply index_inv_sup_add, index_inv_bal_add.
  rewrite delete_commute_token_index.
  apply index_inv_delete_other; [intros; keys | auto with keys |].
  by apply index_inv_unlink.
Qed.

Lemma index_inv_mint s account meta content id :
  length account = 20%nat ->
  is_token_key (mk_token_key id) -> s !! mk_token_key id = None ->
  index_inv s -> index_inv (mint_store account meta content id s).
Proof.
  intros Hl Ht Hnew Hinv. unfold mint_store.
  apply index_inv_sup_add, index_inv_bal_add.
  set (s0 := <[TOKEN_COUNT := int_to_bytes (token_count s + 1)]> s).
  assert (H0 : index_inv s0).
  { apply index_inv_insert_other; [|apply not_token_key_count|done].
    intros a t Ha. apply index_key_not_fixed; [done|].
    rewrite !elem_of_cons. auto. }
  assert (N0 : s0 !! mk_token_key id = None).
  { unfold s0. rewrite lookup_insert_ne; [done|]. intros E. apply Ht. by rewrite <- E. }
  pose proof (index_inv_link s0 account id Hl Ht N0 H0) as H1.
  assert (E : <[mk_token_key id:=account]>
                (<[mk_meta_key id:=json_serialize meta]>
                   (<[mk_locked_key id:=content]>
                      (<[mk_account_prefix account ++ id:=id]> s0)))
              = <[mk_meta_key id:=json_serialize meta]>
                  (<[mk_locked_key id:=content]>
                     (<[mk_token_key id:=account]>
                        (<[mk_account_prefix account ++ id:=id]> s0)))).
  { rewrite (insert_insert_ne _ (mk_token_key id) (mk_meta_key id)) by keys.
    f_equal. by rewrite (insert_insert_ne _ (mk_token_key id) (mk_locked_key id)) by keys. }
  rewrite E.
  apply index_inv_insert_other; [intros; keys | auto with keys |].
  apply index_inv_insert_other; [intros; keys | auto with keys |].
  exact H1.
Qed.

Lemma index_inv_transfer s t o to :
  is_token_key (mk_token_key t) -> s !! mk_token_key t = Some o ->
  length to = 20%nat -> o <> to ->
  index_inv s -> index_inv (transfer_store o to t s).
Proof.
  intros Ht Ho Hlto Hne Hinv. unfold transfer_store.
  set (s1 := bal_add o (-1) s).
  assert (H1 : index_inv s1) by (by apply index_inv_bal_add).
  assert (O1 : s1 !! mk_token_key t = Some o)
    by (unfold s1; by rewrite lookup_bal_add by keys).
  (* unlink from [o]: the TokenOwner entry is overwritten, not deleted *)
  set (s2 := delete (mk_account_prefix o ++ t) s1).
  set (s3 := bal_add to 1 s2).
  assert (E : <[mk_token_key t:=to]> (<[mk_account_prefix to ++ t:=t]> s3)
              = <[mk_token_key t:=to]>
                  (<[mk_account_prefix to ++ t:=t]>
                     (bal_add to 1 (delete (mk_token_key t) s2)))).
  { apply map_eq. intros k.
    destruct (decide (k = mk_token_key t)) as [->|Hk1];
      [by rewrite !lookup_insert_eq|].
    rewrite !(lookup_insert_ne _ (mk_token_key t)) by done.
    destruct (decide (k = mk_account_prefix to ++ t)) as [->|Hk2];
      [by rewrite !lookup_insert_eq|].
    rewrite !(lookup_insert_ne _ (mk_account_prefix to ++ t)) by done.
    unfold s3.
    destruct (decide (k = mk_balance_key to)) as [->|Hk3].
    - unfold bal_add, balance, read.
      rewrite !(lookup_delete_ne _ (mk_token_key t)) by keys.
      destruct (_ >? 0); by rewrite ?lookup_insert_eq, ?lookup_delete_eq.
    - rewrite !lookup_bal_add by done. by rewrite lookup_delete_ne. }
  rewrite E.
  assert (H2 : index_inv (delete (mk_token_key t) s2))
    by (by apply index_inv_unlink).
  apply index_inv_link; [done | done | | by apply index_inv_bal_add].
  rewrite lookup_bal_add by keys. apply lookup_delete_eq.
Qed.

Lemma fresh_index_inv w : fresh w -> index_inv (store w).
Proof.
  intros [|env w' Hd].
  - apply index_inv_empty.
  - rewrite (deploy_store env w' Hd).
    repeat (apply index_inv_insert_other;
            [ intros a t Ha; apply index_key_not_fixed; [done|];
              rewrite !elem_of_cons; auto 10
            | first [ apply not_token_key_count | not_token_key ] | ]).
    apply index_inv_empty.
Qed.

Lemma reachable_fresh_ids_index w : reachable_fresh_ids w -> index_inv (store w).
Proof.
  induction 1 as [w Hf | w env account meta content data id w' _ IH Hnew Hrun
                 | w env t b w' _ IH Hlive Hrun
                 | w env to t data b w' _ IH Hlive Hrun].
  - by apply fresh_index_inv.
  - apply mint_inv in Hrun as (_ & _ & Hl & Hid & ->).
    apply index_inv_mint; try done. subst id. apply is_token_key_minted.
  - destruct Hlive as [Ht [o Ho]].
    destruct (idx_complete _ IH t o Ht Ho) as [Hlo _].
    destruct (burn_inv env w t o b w' Ho Hlo Hrun) as [-> | ->]; [done|].
    by apply index_inv_burn.
  - destruct Hlive as [Ht [o Ho]].
    destruct (idx_complete _ IH t o Ht Ho) as [Hlo _].
    destruct (transfer_inv env w t o to data b w' Ho Hlo Hrun)
      as [-> | (Hne & Hlto & ->)]; [done|].
    by apply index_inv_transfer.
Qed.

(** X20.  In every state reached from a freshly deployed contract by mint,
    burn and transfer calls, where each mint derived an identifier that
    was not live and burn and transfer were called on live tokens,
    [tokensOf] of a 20-byte address returns exactly the index entries of
    the live tokens whose stored owner is that address, each holding its
    token identifier; it stores nothing. *)
Theorem tokensOf_lists_owned w a env :
  reachable_fresh_ids w ->
  length a = 20%nat ->
  exists l w', tokensOf a env w = Ok l w'
    /\ store w' = store w
    /\ forall k v, (k, v) ∈ l
         <-> exists t, k = mk_account_prefix a ++ t /\ v = t
               /\ live (store w) t /\ store w !! mk_token_key t = Some a.
Proof.
  intros Hr Hl. destruct (reachable_fresh_ids_index w Hr) as [Hs Hc].
  unfold tokensOf. unfold_prims. rewrite (len20 a Hl). step.
  eexists _, _. split; [reflexivity|]. split; [done|]. intros k v.
  rewrite elem_of_map_to_list, map_lookup_filter_Some. cbn [fst]. split.
  - intros [Hk [t ->]]. exists t.
    destruct (Hs a t v Hl Hk) as (-> & Ht & Ho).
    split; [done|]. split; [done|]. split; [|done]. split; [done|]. by eexists.
  - intros (t & -> & -> & [Ht _] & Ho).
    destruct (Hc t a Ht Ho) as [_ Hx]. split; [done|]. by exists t.
Qed.

End Index.

Section IndexCount.
Context `{Host}.

(** The tokens of the TokenOwner entries of [a], and those of its index
    entries, are the same tokens. *)
Lemma index_entries_count (s : gmap bytes bytes) a :
  index_inv s -> length a = 20%nat ->
  size (filter (fun kv : bytes * bytes => mk_account_prefix a `prefix_of` kv.1) s)
  = owned_count s a.
Proof.
  intros [Hs Hc] Hl. unfold owned_count. rewrite <- !length_map_to_list.
  set (l1 := map_to_list (filter (fun kv : bytes * bytes =>
                                    mk_account_prefix a `prefix_of` kv.1) s)).
  set (l2 := map_to_list (entries_of a s)).
  assert (P1 : forall k v, (k, v) ∈ l1 <->
            exists t, k = mk_account_prefix a ++ t /\ v = t
              /\ is_token_key (mk_token_key t) /\ s !! mk_token_key t = Some a).
  { intros k v. unfold l1.
    rewrite elem_of_map_to_list, map_lookup_filter_Some. cbn [fst]. split.
    - intros [Hk [t ->]]. exists t. destruct (Hs a t v Hl Hk) as (-> & Ht & Ho). done.
    - intros (t & -> & -> & Ht & Ho). destruct (Hc t a Ht Ho) as [_ Hx].
      split; [done|]. by exists t. }
  assert (P2 : forall k v, (k, v) ∈ l2 <->
            exists t, k = mk_token_key t /\ v = a
              /\ is_token_key (mk_token_key t) /\ s !! mk_token_key t = Some a).
  { intros k v. unfold l2, entries_of.
    rewrite elem_of_map_to_list, map_lookup_filter_Some. cbn [fst snd]. split.
    - intros (Hk & Ht & ->). destruct Ht as [[t ->] Hne]. exists t.
      split; [done|]. split; [done|]. split; [|done]. split; [by exists t|done].
    - intros (t & -> & -> & Ht & Ho). done. }
  rewrite <- (length_fmap snd l1), <- (length_fmap (fun kv => drop 1 kv.1) l2).
  apply Permutation_length, NoDup_Permutation.
  - apply NoDup_fmap_2_strong; [|apply NoDup_map_to_list].
    intros [k v] [k' v'] Hin Hin' E. cbn in E. subst v'.
    apply P1 in Hin as (t & -> & -> & _). apply P1 in Hin' as (t' & -> & -> & _).
    done.
  - apply NoDup_fmap_2_strong; [|apply NoDup_map_to_list].
    intros [k v] [k' v'] Hin Hin' E. cbn in E.
    apply P2 in Hin as (t & -> & -> & _). apply P2 in Hin' as (t' & -> & -> & _).
    unfold_keys. cbn in E. rewrite !drop_0 in E. congruence.
  - intros t. rewrite !list_elem_of_fmap. split.
    + intros ([k v] & -> & Hin). apply P1 in Hin as (t' & -> & -> & Ht & Ho).
      exists (mk_token_key t', a). split; [done|]. apply P2. by exists t'.
    + intros ([k v] & -> & Hin). apply P2 in Hin as (t' & -> & -> & Ht & Ho).
      exists (mk_account_prefix a ++ t', t'). split; [done|]. apply P1. by exists t'.
Qed.

(** X21.  In the states of X20, [balanceOf] of a 20-byte address is the
    number of entries that [tokensOf] returns for that address. *)
Theorem balanceOf_counts_tokensOf w a env :
  reachable_fresh_ids w ->
  length a = 20%nat ->
  exists l w', tokensOf a env w = Ok l w'
    /\ value_of (balanceOf a env w) = Some (Z.of_nat (length l)).
Proof.
  intros Hr Hl.
  pose proof (reachable_fresh_ids_index w Hr) as Hidx.
  destruct (reachable_fresh_ids_inv w Hr) as [Hbal _ _].
  assert (E : tokensOf a env w
              = Ok (map_to_list
                      (filter (fun kv : bytes * bytes =>
                                 mk_account_prefix a `prefix_of` kv.1) (store w)))
                   (accessed (Scanned (mk_account_prefix a)) w)).
  { unfold tokensOf. unfold_prims. by rewrite (len20 a Hl). }
  eexists _, _. split; [exact E|].
  rewrite balanceOf_value by done. f_equal.
  rewrite length_map_to_list, Hbal by done. f_equal.
  symmetry. by apply index_entries_count.
Qed.

End IndexCount.

(** * The claims on the scenario *)

(** The runs that define the scenario. *)
Lemma deployed_run : deploy (env_of 0 [OWNER]) empty_world = Ok true deployed.
Proof. vm_compute. reflexivity. Qed.

Lemma minted_once_run :
  mint addrA [x01] [x02] None (env_of 2 [addrA]) deployed = Ok ghost3 minted_once.
Proof. vm_compute. reflexivity. Qed.

Lemma minted_twice_run :
  mint addrB [x01] [x03] None (env_of 1 [addrB]) minted_once
  = Ok ghost3 minted_twice.
Proof. vm_compute. reflexivity. Qed.

Lemma minted_again_run :
  mint addrA [x01] [x04] None (env_of 2 [addrA]) minted_once
  = Ok ghost4 minted_again.
Proof. vm_compute. reflexivity. Qed.

Lemma transferred_run :
  transfer addrB ghost3 None (env_of 3 [addrA]) minted_once = Ok true transferred.
Proof. vm_compute. reflexivity. Qed.

Lemma minted_once_owner : store minted_once !! mk_token_key ghost3 = Some addrA.
Proof. vm_compute. reflexivity. Qed.

(** The ledger along the scenario: one token after the mint, moved by the
    transfer, gone after the burn by its new owner. *)
Example scenario_ledger :
  (balance (store minted_once) addrA = 1 /\ supply (store minted_once) = 1)
  /\ (balance (store transferred) addrA = 0
      /\ balance (store transferred) addrB = 1
      /\ supply (store transferred) = 1)
  /\ (burn ghost3 (env_of 4 [addrB]) transferred = Ok true burned
      /\ balance (store burned) addrB = 0
      /\ supply (store burned) = 0
      /\ live_count (store burned) = 0%nat).
Proof.
  split; [split; vm_compute; reflexivity|].
  split; [split; [|split]; vm_compute; reflexivity|].
  split; [vm_compute; reflexivity|].
  split; [|split]; vm_compute; reflexivity.
Qed.

(** The failing input of C1: [ghost3] is live in [minted_once] and owned by
    [addrA], and [ownerOf] returns [None]. *)
Example ownerOf_live_token :
  store minted_once !! mk_token_key ghost3 = Some addrA
  /\ value_of (ownerOf ghost3 (env_of 5 []) minted_once) = Some None.
Proof. split; [exact minted_once_owner | reflexivity]. Qed.

(** The burn of the scenario token by its owner: the locked content stays. *)
Lemma burn_leaves_locked_content_witness :
  store minted_once !! mk_token_key ghost3 = Some addrA
  /\ store minted_once !! mk_locked_key ghost3 = Some [x02]
  /\ exists w', burn ghost3 (env_of 5 [addrA]) minted_once = Ok true w'
       /\ store w' !! mk_token_key ghost3 = None
       /\ store w' !! mk_locked_key ghost3 = Some [x02].
Proof.
  split; [exact minted_once_owner|]. split; [vm_compute; reflexivity|].
  destruct (burn_leaves_locked_content (env_of 5 [addrA]) minted_once ghost3 addrA)
    as (w' & E & Ht & _ & _ & _ & _ & Hl).
  - exact minted_once_owner.
  - reflexivity.
  - vm_compute. reflexivity.
  - exists w'. split; [exact E|]. split; [exact Ht|]. rewrite Hl.
    vm_compute. reflexivity.
Defined.

(** A 19-byte address on the three operations. *)
Lemma bad_address_fails_before_storage_witness :
  length short_address <> 20%nat
  /\ balanceOf short_address (env_of 5 [addrA]) minted_once
     = Fault AssertionError minted_once
  /\ tokensOf short_address (env_of 5 [addrA]) minted_once
     = Fault AssertionError minted_once
  /\ forall t d, transfer short_address t d (env_of 5 [addrA]) minted_once
                 = Fault AssertionError minted_once.
Proof.
  assert (Hl : length short_address <> 20%nat) by (simpl; lia).
  split; [exact Hl|].
  exact (bad_address_fails_before_storage short_address (env_of 5 [addrA])
           minted_once Hl).
Defined.

(** [addrA] transfers its token to itself. *)
Lemma transfer_to_self_keeps_store_witness :
  store minted_once !! mk_token_key ghost3 = Some addrA
  /\ length addrA = 20%nat
  /\ witness (env_of 5 [addrA]) addrA = true
  /\ exists w', transfer addrA ghost3 None (env_of 5 [addrA]) minted_once = Ok true w'
       /\ store w' = store minted_once.
Proof.
  split; [exact minted_once_owner|]. split; [reflexivity|].
  split; [vm_compute; reflexivity|].
  destruct (transfer_to_self_keeps_store (env_of 5 [addrA]) minted_once ghost3
              addrA None minted_once_owner)
    as (w' & E & Hs & _); [reflexivity | vm_compute; reflexivity |].
  exists w'. split; [exact E | exact Hs].
Defined.

(** [addrB] tries to take the token of [addrA]. *)
Lemma transfer_unauthorized_soft_fails_witness :
  length addrB = 20%nat
  /\ get_owner_of ghost3 (env_of 5 [addrB]) minted_once
     = Ok addrA (accessed (Read (mk_token_key ghost3)) minted_once)
  /\ witness (env_of 5 [addrB]) addrA = false
  /\ transfer addrB ghost3 None (env_of 5 [addrB]) minted_once
     = Ok false (accessed (Read (mk_token_key ghost3)) minted_once).
Proof.
  assert (Ho : get_owner_of ghost3 (env_of 5 [addrB]) minted_once
               = Ok addrA (accessed (Read (mk_token_key ghost3)) minted_once))
    by (vm_compute; reflexivity).
  assert (Hw : witness (env_of 5 [addrB]) addrA = false)
    by (vm_compute; reflexivity).
  split; [reflexivity|]. split; [exact Ho|]. split; [exact Hw|].
  exact (proj1 (transfer_unauthorized_soft_fails (env_of 5 [addrB]) minted_once
                  addrB ghost3 None addrA _ eq_refl Ho Hw)).
Defined.

(** The owner adds itself again, and adds [addrA] twice. *)
Lemma set_authorized_address_idempotent_witness :
  (witness (env_of 0 [OWNER]) OWNER = true
   /\ deserialize (read (store deployed) AUTH_ADDRESSES) = Some (AList [OWNER])
   /\ OWNER ∈ [OWNER]
   /\ exists w', set_authorized_address OWNER true (env_of 0 [OWNER]) deployed
                 = Ok true w'
        /\ store w' = store deployed)
  /\ (set_authorized_address addrA true (env_of 0 [OWNER]) deployed
      = Ok true authorized_A
      /\ exists w2, set_authorized_address addrA true (env_of 1 [OWNER]) authorized_A
                    = Ok true w2
           /\ store w2 = store authorized_A).
Proof.
  destruct (@set_authorized_address_idempotent simple_host) as [P1 P2].
  assert (Hw : witness (env_of 0 [OWNER]) OWNER = true) by (vm_compute; reflexivity).
  assert (Hl : deserialize (read (store deployed) AUTH_ADDRESSES)
               = Some (AList [OWNER])) by (vm_compute; reflexivity).
  assert (Hin : OWNER ∈ [OWNER]) by apply list_elem_of_here.
  assert (Hrun : set_authorized_address addrA true (env_of 0 [OWNER]) deployed
                 = Ok true authorized_A) by (vm_compute; reflexivity).
  split.
  - split; [exact Hw|]. split; [exact Hl|]. split; [exact Hin|].
    destruct (P1 (env_of 0 [OWNER]) deployed OWNER [OWNER] Hw Hl Hin)
      as (w' & E & _ & Hs).
    exists w'. split; [exact E|]. apply Hs. vm_compute. reflexivity.
  - split; [exact Hrun|].
    apply (P2 (env_of 0 [OWNER]) (env_of 1 [OWNER]) deployed addrA authorized_A Hrun).
    vm_compute. reflexivity.
Defined.

(** After the transfer the new owner reads the payload, the old one is
    refused. *)
Lemma locked_content_gating_witness :
  mint addrA [x01] [x02] None (env_of 2 [addrA]) deployed = Ok ghost3 minted_once
  /\ later ghost3 minted_once transferred
  /\ store transferred !! mk_token_key ghost3 = Some addrB
  /\ (exists w', getLockedContent ghost3 (env_of 7 [addrB]) transferred = Ok [x02] w'
        /\ view_count (store w') ghost3 = 1)
  /\ (exists w', getLockedContent ghost3 (env_of 8 [addrA]) transferred
                 = Fault (Exception "Prohibited access to locked content!") w'
        /\ view_count (store w') ghost3 = 0).
Proof.
  assert (Hl : later ghost3 minted_once transferred).
  { eapply later_transfer; [apply later_refl | exact transferred_run]. }
  assert (Ho : store transferred !! mk_token_key ghost3 = Some addrB)
    by (vm_compute; reflexivity).
  assert (Hv : view_count (store transferred) ghost3 = 0) by (vm_compute; reflexivity).
  split; [exact minted_once_run|]. split; [exact Hl|]. split; [exact Ho|].
  split.
  - destruct (proj1 (locked_content_gating _ _ _ _ _ _ _ _ _ (env_of 7 [addrB]) addrB
                       minted_once_run Hl Ho eq_refl))
      as (w' & E & Hc & _); [vm_compute; reflexivity|].
    exists w'. split; [exact E|]. rewrite Hc, Hv. reflexivity.
  - destruct (proj2 (locked_content_gating _ _ _ _ _ _ _ _ _ (env_of 8 [addrA]) addrB
                       minted_once_run Hl Ho eq_refl))
      as (w' & E & _ & Hc); [vm_compute; reflexivity|].
    exists w'. split; [exact E|]. rewrite Hc. exact Hv.
Defined.

(** C6, the claim as stated fails: on a contract whose fee reads as 0, with
    the fee transfer succeeding, [mint] returns an identifier that is
    already live; the live tokens are as many after the call as before,
    so no new token was created. *)
Lemma mint_reissue_creates_no_token :
  mint_fee (store early_once) = 0
  /\ gas_transfer (env_of 1 [addrB]) addrB
       (executing_script_hash (env_of 1 [addrB])) 0 = true
  /\ mint addrB [x01] [x03] None (env_of 1 [addrB]) early_once
     = Ok ghost3 early_twice
  /\ store early_once !! mk_token_key ghost3 = Some addrA
  /\ live_count (store early_once) = 1%nat
  /\ live_count (store early_twice) = 1%nat.
Proof.
  split; [vm_compute; reflexivity|]. split; [vm_compute; reflexivity|].
  split; [vm_compute; reflexivity|]. split; [vm_compute; reflexivity|].
  split; vm_compute; reflexivity.
Qed.

(** A mint under a negative fee, and the first mint of the scenario. *)
(** The first mint of the scenario is within the integers of the host. *)
Lemma deployed_mint_in_range :
  mint_in_range (env_of 2 [addrA]) (store deployed) addrA None.
Proof.
  unfold mint_in_range, host_bytes, host_int.
  assert (B : forall n k : nat, Nat.leb n k = true -> (n <= k)%nat)
    by (intros n k; apply Nat.leb_le).
  assert (Z1 : forall a b : Z, Z.leb a b = true -> a <= b)
    by (intros a b; apply Z.leb_le).
  assert (Z2 : forall a b : Z, Z.ltb a b = true -> a < b)
    by (intros a b; apply Z.ltb_lt).
  split; [apply B; vm_compute; reflexivity|].
  split; [apply B; vm_compute; reflexivity|].
  split; [apply B; vm_compute; reflexivity|].
  split; [split; [apply Z1 | apply Z2]; vm_compute; reflexivity|].
  split; [apply B; vm_compute; reflexivity|].
  split; [split; [apply Z1 | apply Z2]; vm_compute; reflexivity|].
  split; [exact I|].
  split; [split; [apply Z1 | apply Z2]; vm_compute; reflexivity|].
  split; [apply B; vm_compute; reflexivity|].
  split; [split; [apply Z1 | apply Z2]; vm_compute; reflexivity|].
  split; [apply Z1 | apply Z2]; vm_compute; reflexivity.
Qed.

Lemma mint_fee_precondition_witness :
  (mint_fee (store negative_fee) < 0
   /\ exists w', mint addrA [x01] [x02] None (env_of 2 [addrA]) negative_fee
                 = Fault (Exception "Mint fee can't be < 0") w'
        /\ store w' = store negative_fee)
  /\ (0 <= mint_fee (store deployed)
      /\ length addrA = 20%nat
      /\ addrA <> executing_script_hash (env_of 2 [addrA])
      /\ mint_in_range (env_of 2 [addrA]) (store deployed) addrA None
      /\ store deployed !! mk_token_key ghost3 = None
      /\ exists w', mint addrA [x01] [x02] None (env_of 2 [addrA]) deployed
                    = Ok ghost3 w'
           /\ live_count (store w') = S (live_count (store deployed))).
Proof.
  split.
  - assert (Hneg : mint_fee (store negative_fee) < 0) by (vm_compute; reflexivity).
    split; [exact Hneg|].
    exact (proj1 (mint_fee_precondition (env_of 2 [addrA]) negative_fee
                    addrA [x01] [x02] None) Hneg).
  - assert (Hfee : 0 <= mint_fee (store deployed)) by (vm_compute; discriminate).
    assert (Hnew : store deployed !! mk_token_key ghost3 = None)
      by (vm_compute; reflexivity).
    assert (Hself : addrA <> executing_script_hash (env_of 2 [addrA]))
      by discriminate.
    split; [exact Hfee|]. split; [reflexivity|]. split; [exact Hself|].
    split; [exact deployed_mint_in_range|]. split; [exact Hnew|].
    destruct (proj2 (proj2 (mint_fee_precondition (env_of 2 [addrA]) deployed
                              addrA [x01] [x02] None)) Hfee eq_refl eq_refl
                Hself deployed_mint_in_range)
      as (w' & E & _ & _ & Hc & _).
    exists w'. split; [exact E|]. apply Hc. exact Hnew.
Defined.

(** C7, the claim as stated fails: after [deploy] and two mints that
    derive the same identifier, the supply is 2 with one live token, and
    [addrA] has balance 1 while it owns no live token. *)
Lemma accounting_invariant_counterexample :
  reachable minted_twice
  /\ value_of (totalSupply (env_of 0 []) minted_twice) = Some 2
  /\ live_count (store minted_twice) = 1%nat
  /\ value_of (balanceOf addrA (env_of 0 []) minted_twice) = Some 1
  /\ owned_count (store minted_twice) addrA = 0%nat.
Proof.
  split.
  - eapply reach_mint; [|exact minted_twice_run].
    eapply reach_mint; [|exact minted_once_run].
    apply reach_fresh. eapply fresh_deploy. exact deployed_run.
  - split; [vm_compute; reflexivity|]. split; [vm_compute; reflexivity|].
    split; vm_compute; reflexivity.
Qed.

(** The invariant after deploy, mint and transfer. *)
Lemma accounting_invariant_fresh_ids_witness :
  reachable_fresh_ids transferred
  /\ value_of (balanceOf addrB (env_of 0 []) transferred) = Some 1
  /\ owned_count (store transferred) addrB = 1%nat
  /\ value_of (totalSupply (env_of 0 []) transferred) = Some 1.
Proof.
  assert (Hr : reachable_fresh_ids transferred).
  { eapply rf_transfer; [| |exact transferred_run].
    - eapply rf_mint; [| |exact minted_once_run].
      + apply rf_fresh. eapply fresh_deploy. exact deployed_run.
      + vm_compute. reflexivity.
    - split; [apply is_token_key_minted|]. rewrite minted_once_owner. by eexists. }
  assert (Hc : owned_count (store transferred) addrB = 1%nat)
    by (vm_compute; reflexivity).
  split; [exact Hr|].
  destruct (accounting_invariant_fresh_ids transferred Hr) as [Hb Hs].
  split; [|split; [exact Hc|]].
  - rewrite (Hb addrB (env_of 0 []) eq_refl), Hc. reflexivity.
  - rewrite (Hs (env_of 0 [])). vm_compute. reflexivity.
Defined.

(** C8, the claim as stated fails: two successful mints, one after the
    other, return the same identifier. *)
Lemma mint_ids_collide :
  mint addrA [x01] [x02] None (env_of 2 [addrA]) deployed = Ok ghost3 minted_once
  /\ mint addrB [x01] [x03] None (env_of 1 [addrB]) minted_once
     = Ok ghost3 minted_twice.
Proof. split; [exact minted_once_run | exact minted_twice_run]. Qed.

(** Two mints in one transaction, one after the other. *)
Lemma mint_ids_equal_iff_sums_equal_witness :
  mint addrA [x01] [x02] None (env_of 2 [addrA]) deployed = Ok ghost3 minted_once
  /\ mint addrA [x01] [x04] None (env_of 2 [addrA]) minted_once
     = Ok ghost4 minted_again
  /\ ghost3 <> ghost4
  /\ token_count (store minted_once) = token_count (store deployed) + 1.
Proof.
  split; [exact minted_once_run|]. split; [exact minted_again_run|].
  destruct (mint_ids_equal_iff_sums_equal _ _ _ _ _ _ _ _ _ _ _ _ _ _ _ _
              minted_once_run minted_again_run) as (_ & Hc & Hd).
  split; [|exact Hc]. by apply Hd.
Defined.

(** * The further properties on the scenario *)

Lemma ok_of_value {A} (o : Outcome A) (a : A) :
  value_of o = Some a -> o = Ok a (world_of o).
Proof. destruct o; cbn; [by intros [= ->] | done]. Qed.

Lemma owner_witness : forall h, witness (env_of h [OWNER]) OWNER = true.
Proof. intros h. vm_compute. reflexivity. Qed.

Lemma addrA_not_owner : addrA ∉ [OWNER].
Proof. apply not_elem_of_cons. split; [discriminate | apply not_elem_of_nil]. Qed.

Lemma transferred_reachable : reachable_fresh_ids transferred.
Proof.
  eapply rf_transfer; [| |exact transferred_run].
  - eapply rf_mint; [| |exact minted_once_run].
    + apply rf_fresh. eapply fresh_deploy. exact deployed_run.
    + vm_compute. reflexivity.
  - split; [apply is_token_key_minted|]. rewrite minted_once_owner. by eexists.
Qed.

(** The first deploy. *)
Lemma deploy_initializes_witness :
  witness (env_of 0 [OWNER]) OWNER = true
  /\ to_bool (read (store empty_world) DEPLOYED) = false
  /\ exists w', deploy (env_of 0 [OWNER]) empty_world = Ok true w'
       /\ token_count (store w') = 0
       /\ mint_fee (store w') = DEPLOY_FEE.
Proof.
  split; [apply owner_witness|]. split; [reflexivity|].
  destruct (deploy_initializes (env_of 0 [OWNER]) empty_world
              (owner_witness 0) eq_refl) as (w' & E & _ & Hc & Hf & _).
  exists w'. split; [exact E|]. split; [exact Hc | exact Hf].
Defined.

(** A second deploy by the owner. *)
Lemma deploy_only_once_witness :
  deploy (env_of 0 [OWNER]) empty_world = Ok true deployed
  /\ exists w2, deploy (env_of 9 [OWNER]) deployed = Ok false w2
       /\ store w2 = store deployed.
Proof.
  split; [exact deployed_run|].
  destruct (deploy_only_once (env_of 0 [OWNER]) empty_world deployed deployed_run
              (env_of 9 [OWNER])) as (w2 & E & Hs & _).
  exists w2. split; [exact E | exact Hs].
Defined.

(** [addrB] tries to burn the token of [addrA]. *)
Lemma burn_unauthorized_soft_fails_witness :
  get_owner_of ghost3 (env_of 5 [addrB]) minted_once
  = Ok addrA (accessed (Read (mk_token_key ghost3)) minted_once)
  /\ witness (env_of 5 [addrB]) addrA = false
  /\ burn ghost3 (env_of 5 [addrB]) minted_once
     = Ok false (accessed (Read (mk_token_key ghost3)) minted_once).
Proof.
  assert (Ho : get_owner_of ghost3 (env_of 5 [addrB]) minted_once
               = Ok addrA (accessed (Read (mk_token_key ghost3)) minted_once))
    by (apply get_owner_of_run; [exact minted_once_owner | reflexivity]).
  assert (Hw : witness (env_of 5 [addrB]) addrA = false)
    by (vm_compute; reflexivity).
  split; [exact Ho|]. split; [exact Hw|].
  exact (proj1 (burn_unauthorized_soft_fails (env_of 5 [addrB]) minted_once
                  ghost3 addrA _ Ho Hw)).
Defined.

(** The transfer of the scenario. *)
Lemma transfer_moves_token_witness :
  store minted_once !! mk_token_key ghost3 = Some addrA
  /\ witness (env_of 3 [addrA]) addrA = true
  /\ addrA <> addrB
  /\ addrB <> executing_script_hash (env_of 3 [addrA])
  /\ 1 <= balance (store minted_once) addrA
  /\ 0 <= balance (store minted_once) addrB
  /\ exists w', transfer addrB ghost3 None (env_of 3 [addrA]) minted_once = Ok true w'
       /\ store w' !! mk_token_key ghost3 = Some addrB
       /\ balance (store w') addrB = balance (store minted_once) addrB + 1.
Proof.
  assert (Hw : witness (env_of 3 [addrA]) addrA = true) by (vm_compute; reflexivity).
  assert (Hne : addrA <> addrB) by discriminate.
  assert (Hb1 : 1 <= balance (store minted_once) addrA) by (vm_compute; discriminate).
  assert (Hb2 : 0 <= balance (store minted_once) addrB) by (vm_compute; discriminate).
  assert (Hself : addrB <> executing_script_hash (env_of 3 [addrA]))
    by discriminate.
  split; [exact minted_once_owner|]. split; [exact Hw|]. split; [exact Hne|].
  split; [exact Hself|]. split; [exact Hb1|]. split; [exact Hb2|].
  destruct (transfer_moves_token (env_of 3 [addrA]) minted_once ghost3 addrA addrB
              None minted_once_owner eq_refl eq_refl Hw Hne Hself Hb1 Hb2)
    as (w' & E & Ho & _ & _ & _ & Hb & _).
  exists w'. split; [exact E|]. split; [exact Ho | exact Hb].
Defined.

(** Taking 5 from an absent balance. *)
Lemma add_to_balance_clamps_witness :
  length addrA = 20%nat
  /\ exists w', add_to_balance addrA (-5) (env_of 0 []) empty_world = Ok tt w'
       /\ balance (store w') addrA = 0
       /\ store w' !! mk_balance_key addrA = None.
Proof.
  split; [reflexivity|].
  destruct (add_to_balance_clamps addrA (-5) (env_of 0 []) empty_world eq_refl)
    as (w' & E & Hb & Hn & _).
  exists w'. split; [exact E|]. split.
  - rewrite Hb. vm_compute. reflexivity.
  - apply Hn. vm_compute. discriminate.
Defined.

(** The owner sets the fee to 7. *)
Lemma setMintFee_getMintFee_witness :
  witness (env_of 0 [OWNER]) OWNER = true
  /\ exists w', setMintFee 7 (env_of 0 [OWNER]) deployed = Ok 7 w'
       /\ value_of (getMintFee (env_of 1 []) w') = Some 7.
Proof.
  split; [apply owner_witness|].
  destruct (setMintFee_getMintFee 7 (env_of 0 [OWNER]) deployed (owner_witness 0))
    as (w' & E & Hg & _).
  exists w'. split; [exact E | apply Hg].
Defined.

(** The owner sets the fee to -1; a mint follows. *)
Lemma negative_fee_blocks_mint_witness :
  -1 < 0
  /\ exists w', setMintFee (-1) (env_of 0 [OWNER]) deployed = Ok (-1) w'
       /\ exists w'', mint addrA [x01] [x02] None (env_of 2 [addrA]) w'
                      = Fault (Exception "Mint fee can't be < 0") w''.
Proof.
  split; [lia|].
  destruct (setMintFee_run (-1) (env_of 0 [OWNER]) deployed (owner_witness 0))
    as (w' & E & _).
  exists w'. split; [exact E|].
  destruct (negative_fee_blocks_mint (-1) (env_of 0 [OWNER]) deployed w'
              ltac:(lia) E addrA [x01] [x02] None (env_of 2 [addrA]))
    as (w'' & E' & _).
  exists w''. exact E'.
Defined.

(** [addrA], although added to the authorized list, administers nothing. *)
Lemma administration_needs_owner_witness :
  witness (env_of 0 [addrA]) OWNER = false
  /\ setMintFee 0 (env_of 0 [addrA]) authorized_A
     = Fault AssertionError authorized_A
  /\ set_authorized_address addrB true (env_of 0 [addrA]) authorized_A
     = Ok false authorized_A.
Proof.
  assert (Hw : witness (env_of 0 [addrA]) OWNER = false) by (vm_compute; reflexivity).
  split; [exact Hw|].
  destruct (administration_needs_owner (env_of 0 [addrA]) authorized_A Hw)
    as (P1 & _ & P3).
  split; [apply P1 | apply P3].
Defined.

(** The owner withdraws the fees to [addrA]. *)
Lemma withdrawFee_moves_whole_balance_witness :
  witness (env_of 0 [OWNER]) OWNER = true
  /\ exists w', withdrawFee addrA (env_of 0 [OWNER]) deployed = Ok true w'
       /\ store w' = store deployed.
Proof.
  split; [apply owner_witness|].
  destruct (withdrawFee_moves_whole_balance addrA (env_of 0 [OWNER]) deployed
              (owner_witness 0)) as (w' & E & Hs & _).
  exists w'. split; [exact E | exact Hs].
Defined.

Lemma deployed_authorized :
  store deployed !! AUTH_ADDRESSES = Some (serialize (AList [OWNER])).
Proof. vm_compute. reflexivity. Qed.

(** The owner adds [addrA] and removes it again. *)
Lemma authorized_add_then_remove_witness :
  store deployed !! AUTH_ADDRESSES = Some (serialize (AList [OWNER]))
  /\ (addrA ∉ [OWNER])
  /\ exists w1 w2,
       set_authorized_address addrA true (env_of 0 [OWNER]) deployed = Ok true w1
       /\ set_authorized_address addrA false (env_of 1 [OWNER]) w1 = Ok true w2
       /\ store w2 = store deployed.
Proof.
  split; [exact deployed_authorized|]. split; [exact addrA_not_owner|].
  destruct (authorized_add_then_remove (env_of 0 [OWNER]) (env_of 1 [OWNER])
              deployed addrA [OWNER] (owner_witness 0) (owner_witness 1)
              deployed_authorized addrA_not_owner)
    as (w1 & w2 & E1 & _ & E2 & Hs).
  exists w1, w2. split; [exact E1|]. split; [exact E2 | exact Hs].
Defined.

(** The owner removes [addrA], which was never added. *)
Lemma authorized_remove_absent_fails_witness :
  deserialize (read (store deployed) AUTH_ADDRESSES) = Some (AList [OWNER])
  /\ (addrA ∉ [OWNER])
  /\ exists w', set_authorized_address addrA false (env_of 0 [OWNER]) deployed
                = Fault ValueError w'.
Proof.
  assert (Hl : deserialize (read (store deployed) AUTH_ADDRESSES)
               = Some (AList [OWNER])) by (vm_compute; reflexivity).
  split; [exact Hl|]. split; [exact addrA_not_owner|].
  destruct (authorized_remove_absent_fails (env_of 0 [OWNER]) deployed addrA [OWNER]
              (owner_witness 0) Hl addrA_not_owner) as (w' & E & _).
  exists w'. exact E.
Defined.

(** A mint for a 19-byte account. *)
Lemma mint_bad_account_fails_after_fee_witness :
  length short_address <> 20%nat
  /\ 0 <= mint_fee (store deployed)
  /\ exists w', mint short_address [x01] [x02] None (env_of 2 []) deployed
                = Fault AssertionError w'.
Proof.
  assert (Hl : length short_address <> 20%nat) by (simpl; lia).
  assert (Hf : 0 <= mint_fee (store deployed)) by (vm_compute; discriminate).
  split; [exact Hl|]. split; [exact Hf|].
  destruct (mint_bad_account_fails_after_fee (env_of 2 []) deployed short_address
              [x01] [x02] None Hl Hf eq_refl) as (w' & E & _).
  exists w'. exact E.
Defined.

(** [addrB] tries to burn the token of [addrA] in a batch. *)
Lemma multiBurn_unauthorized_witness :
  exists w', multiBurn [ghost3; ghost3] (env_of 5 [addrB]) minted_once
             = Ok [false; false] w'
    /\ store w' = store minted_once.
Proof.
  destruct (multiBurn_unauthorized [ghost3; ghost3] (env_of 5 [addrB]) minted_once)
    as (w' & E & Hs & _).
  - assert (P : exists o, store minted_once !! mk_token_key ghost3 = Some o
                  /\ length o = 20%nat /\ witness (env_of 5 [addrB]) o = false).
    { exists addrA. split; [exact minted_once_owner|]. split; [reflexivity|].
      vm_compute. reflexivity. }
    repeat constructor; exact P.
  - exists w'. split; [exact E | exact Hs].
Defined.

Lemma batch_value :
  value_of (multiMint addrA [[x01]; [x01]] [[x02]; [x04]] None
              (env_of 2 [addrA]) deployed)
  = Some [ghost3; ghost4].
Proof. vm_compute. reflexivity. Qed.

(** A batch of two in the transaction of hash 2. *)
Lemma multiMint_ids_witness :
  multiMint addrA [[x01]; [x01]] [[x02]; [x04]] None (env_of 2 [addrA]) deployed
  = Ok [ghost3; ghost4]
      (world_of (multiMint addrA [[x01]; [x01]] [[x02]; [x04]] None
                   (env_of 2 [addrA]) deployed))
  /\ NoDup [ghost3; ghost4].
Proof.
  pose proof (ok_of_value _ _ batch_value) as E.
  split; [exact E|].
  exact (proj1 (proj2 (multiMint_ids _ _ _ _ _ _ _ _ E))).
Defined.

(** The first mint of the scenario. *)
Lemma mint_writes_entries_witness :
  0 <= mint_fee (store deployed)
  /\ addrA <> executing_script_hash (env_of 2 [addrA])
  /\ mint_in_range (env_of 2 [addrA]) (store deployed) addrA None
  /\ 0 <= balance (store deployed) addrA
  /\ exists w', mint addrA [x01] [x02] None (env_of 2 [addrA]) deployed
                = Ok (new_token_id (env_of 2 [addrA]) (store deployed) None) w'
       /\ balance (store w') addrA = balance (store deployed) addrA + 1
       /\ supply (store w') = supply (store deployed) + 1.
Proof.
  assert (Hf : 0 <= mint_fee (store deployed)) by (vm_compute; discriminate).
  assert (Hb : 0 <= balance (store deployed) addrA) by (vm_compute; discriminate).
  assert (Hself : addrA <> executing_script_hash (env_of 2 [addrA]))
    by discriminate.
  split; [exact Hf|]. split; [exact Hself|].
  split; [exact deployed_mint_in_range|]. split; [exact Hb|].
  destruct (mint_writes_entries (env_of 2 [addrA]) deployed addrA [x01] [x02] None
              Hf eq_refl eq_refl Hself deployed_mint_in_range Hb)
    as (w' & E & _ & _ & _ & _ & Hb' & Hs' & _).
  exists w'. split; [exact E|]. split; [exact Hb' | exact Hs'].
Defined.

(** The keys of [ghost3] and [addrA]. *)
Lemma minted_keys_apart_witness :
  length addrA = 20%nat
  /\ mk_account_prefix addrA ++ ghost3 <> AUTH_ADDRESSES
  /\ mk_token_key ghost3 <> TOKEN_COUNT.
Proof.
  split; [reflexivity|].
  pose proof (minted_keys_apart [x03] addrA eq_refl) as Hnd.
  split; intros E.
  - apply NoDup_cons in Hnd as [_ Hnd]. apply NoDup_cons in Hnd as [_ Hnd].
    apply NoDup_cons in Hnd as [_ Hnd]. apply NoDup_cons in Hnd as [_ Hnd].
    apply NoDup_cons in Hnd as [_ Hnd]. apply NoDup_cons in Hnd as [Hn _].
    apply Hn. unfold ghost3 in E. rewrite E. rewrite !elem_of_cons. auto.
  - apply NoDup_cons in Hnd as [Hn _].
    apply Hn. unfold ghost3 in E. rewrite E. rewrite !elem_of_cons. auto 10.
Defined.

(** After the transfer [addrB] has the token and [addrA] has none. *)
Lemma tokensOf_lists_owned_witness :
  reachable_fresh_ids transferred
  /\ exists l w', tokensOf addrB (env_of 0 []) transferred = Ok l w'
       /\ (mk_account_prefix addrB ++ ghost3, ghost3) ∈ l.
Proof.
  split; [exact transferred_reachable|].
  destruct (tokensOf_lists_owned transferred addrB (env_of 0 [])
              transferred_reachable eq_refl) as (l & w' & E & _ & Hl).
  exists l, w'. split; [exact E|]. apply Hl. exists ghost3.
  assert (Ho : store transferred !! mk_token_key ghost3 = Some addrB)
    by (vm_compute; reflexivity).
  split; [reflexivity|]. split; [reflexivity|]. split; [|exact Ho].
  split; [apply is_token_key_minted|]. rewrite Ho. by eexists.
Defined.

(** After the transfer [tokensOf] returns one entry for [addrB]. *)
Lemma balanceOf_counts_tokensOf_witness :
  reachable_fresh_ids transferred
  /\ exists l w', tokensOf addrB (env_of 0 []) transferred = Ok l w'
       /\ value_of (balanceOf addrB (env_of 0 []) transferred)
          = Some (Z.of_nat (length l)).
Proof.
  split; [exact transferred_reachable|].
  exact (balanceOf_counts_tokensOf transferred addrB (env_of 0 [])
           transferred_reachable eq_refl).
Defined.
